(** * LoopNet assisted-living scraper: a shallow embedding of the pure core

    The development follows [loopnet_assisted_living_scraper.py].  The
    browser session (Playwright) and the spreadsheet writer are effects
    outside the embedding; every function below takes the text that the
    browser would have produced as an ordinary argument.

    Text.  A Python [str] is modelled as a [string] whose characters are
    the code points U+0000 .. U+00FF (one [ascii] per code point).  The
    character classes below are Python's classes restricted to that
    range: [\d] is 0-9, [\s] and [str.strip] use the twelve white-space
    code points, [str.lower] maps A-Z and the upper-case Latin-1 letters.
    [int] of a digit run is the unbounded integer it denotes. *)

From Stdlib Require Import ZArith Ascii String List Bool Lia.
From stdpp Require Import base option list strings gmap.

Local Open Scope bool_scope.

(** ** Characters *)

Module Char.

Definition code (c : ascii) : N := N_of_ascii c.

Definition between (lo hi : N) (c : ascii) : bool :=
  (N.leb lo (code c)) && (N.leb (code c) hi).

(** [\d] *)
Definition is_digit (c : ascii) : bool := between 48 57 c.

(** [A-Z] and [a-z] as written in a character class (no flag). *)
Definition is_AZ (c : ascii) : bool := between 65 90 c.
Definition is_az (c : ascii) : bool := between 97 122 c.

(** [\s], also the characters [str.strip] removes. *)
Definition is_space (c : ascii) : bool :=
  between 9 13 c || between 28 32 c
  || N.eqb (code c) 133 || N.eqb (code c) 160.

(** [\w], used by the word boundary [\b]. *)
Definition is_word (c : ascii) : bool :=
  is_digit c || is_AZ c || is_az c || N.eqb (code c) 95
  || N.eqb (code c) 170 || between 178 179 c || N.eqb (code c) 181
  || between 185 186 c || between 188 190 c
  || between 192 214 c || between 216 246 c || between 248 255 c.

(** [str.lower] on one character. *)
Definition lower (c : ascii) : ascii :=
  if is_AZ c || between 192 214 c || between 216 222 c
  then ascii_of_N (code c + 32) else c.

Definition eqb (a b : ascii) : bool := Ascii.eqb a b.

(** A pattern letter under [re.IGNORECASE]. *)
Definition eqb_nocase (p c : ascii) : bool := Ascii.eqb (lower p) (lower c).

Definition newline : ascii := "010"%char.
Definition middle_dot : ascii := "183"%char.

End Char.

(** ** Strings: the [str] methods the program calls *)

Module Str.

Definition is_empty (s : string) : bool :=
  match s with EmptyString => true | String _ _ => false end.

(** Truth value of a string: [if s], [not s], [a or b]. *)
Definition truthy (s : string) : bool := negb (is_empty s).

(** [a or b] on strings. *)
Definition or (a b : string) : string := if truthy a then a else b.

Fixpoint map (f : ascii -> ascii) (s : string) : string :=
  match s with
  | EmptyString => EmptyString
  | String c s' => String (f c) (map f s')
  end.

(** [s.lower()] *)
Definition lower (s : string) : string := map Char.lower s.

Fixpoint lstrip (s : string) : string :=
  match s with
  | EmptyString => EmptyString
  | String c s' => if Char.is_space c then lstrip s' else s
  end.

Fixpoint rstrip (s : string) : string :=
  match s with
  | EmptyString => EmptyString
  | String c s' =>
      let r := rstrip s' in
      if Char.is_space c && is_empty r then EmptyString else String c r
  end.

(** [s.strip()] *)
Definition strip (s : string) : string := rstrip (lstrip s).

(** [s.replace(a, b)] for one-character [a] and [b]. *)
Definition replace (a b : ascii) (s : string) : string :=
  map (fun c => if Char.eqb c a then b else c) s.

(** [s.split(sep)] for a one-character separator: never an empty list. *)
Fixpoint split (sep : ascii) (s : string) : list string :=
  match s with
  | EmptyString => [EmptyString]
  | String c s' =>
      if Char.eqb c sep then EmptyString :: split sep s'
      else match split sep s' with
           | h :: t => String c h :: t
           | [] => [String c EmptyString]
           end
  end.

Fixpoint startswith (p s : string) : bool :=
  match p, s with
  | EmptyString, _ => true
  | String a p', String b s' => Char.eqb a b && startswith p' s'
  | String _ _, EmptyString => false
  end.

(** [needle in hay] *)
Fixpoint contains (needle hay : string) : bool :=
  startswith needle hay ||
  match hay with
  | EmptyString => false
  | String _ hay' => contains needle hay'
  end.

(** [any(k in s for k in ks)] *)
Definition contains_any (ks : list string) (s : string) : bool :=
  existsb (fun k => contains k s) ks.

(** [sep.join(parts)] *)
Fixpoint join (sep : string) (parts : list string) : string :=
  match parts with
  | [] => EmptyString
  | [p] => p
  | p :: rest => p +:+ sep +:+ join sep rest
  end.

Definition digit_value (c : ascii) : Z := Z.of_N (Char.code c) - 48.

Fixpoint int_acc (acc : Z) (s : string) : Z :=
  match s with
  | EmptyString => acc
  | String c s' => int_acc (10 * acc + digit_value c) s'
  end.

(** [int(s)] for a run of decimal digits, the only strings the
    program converts. *)
Definition int (s : string) : Z := int_acc 0 s.

Fixpoint take (n : nat) (s : string) : string :=
  match n, s with
  | S n', String c s' => String c (take n' s')
  | _, _ => EmptyString
  end.

(** [all(p(c) for c in s)] *)
Fixpoint all_chars (p : ascii -> bool) (s : string) : bool :=
  match s with
  | EmptyString => true
  | String c s' => p c && all_chars p s'
  end.

End Str.

(** ** Patterns: Python's [re] for the pattern shapes of the program

    [re] is a backtracking matcher: alternatives are tried left to
    right, repetitions are greedy and give characters back one at a
    time, [search] returns the match at the leftmost start.  Every
    repetition in the program's patterns is over one character class,
    so [Star] takes a class.  The matcher is written in
    continuation-passing style: the continuation is the rest of the
    pattern, and [None] from it makes the matcher backtrack. *)

Module Re.

Inductive regex : Type :=
| Eps                              (* the empty pattern *)
| Chr (p : ascii -> bool)          (* one character of a class *)
| Seq (r1 r2 : regex)              (* r1 r2 *)
| Alt (r1 r2 : regex)              (* r1|r2 *)
| Star (p : ascii -> bool)         (* [class]* , greedy *)
| Grp (r : regex)                  (* (r), capture group 1 *)
| Eos                              (* $ without re.MULTILINE *)
| WordB.                           (* \b *)

(** Where the matcher stands: the character before it, the text
    still ahead, and group 1 if already closed. *)
Record cursor : Type := Cursor {
  prev : option ascii;
  rest : string;
  group1 : option string;
}.

Section Matcher.
Context {A : Type}.

Definition orelse (x y : option A) : option A :=
  match x with Some _ => x | None => y end.

(** Greedy [class]*: take a character if possible and go on; when
    everything after fails, give it back and continue from here. *)
Fixpoint star (p : ascii -> bool) (pv : option ascii) (s : string)
    (g : option string) (k : cursor -> option A) : option A :=
  match s with
  | String c s' =>
      if p c then orelse (star p (Some c) s' g k) (k (Cursor pv s g))
      else k (Cursor pv s g)
  | EmptyString => k (Cursor pv s g)
  end.

Definition at_boundary (c : cursor) : bool :=
  let before := match prev c with Some a => Char.is_word a | None => false end in
  let after := match rest c with String a _ => Char.is_word a | EmptyString => false end in
  xorb before after.

Definition at_end (c : cursor) : bool :=
  match rest c with
  | EmptyString => true
  | String a EmptyString => Char.eqb a Char.newline
  | _ => false
  end.

Fixpoint run (r : regex) (c : cursor) (k : cursor -> option A) : option A :=
  match r with
  | Eps => k c
  | Chr p =>
      match rest c with
      | String a s' => if p a then k (Cursor (Some a) s' (group1 c)) else None
      | EmptyString => None
      end
  | Seq r1 r2 => run r1 c (fun c' => run r2 c' k)
  | Alt r1 r2 => orelse (run r1 c k) (run r2 c k)
  | Star p => star p (prev c) (rest c) (group1 c) k
  | Grp r' =>
      run r' c (fun c' =>
        let n := (String.length (rest c) - String.length (rest c'))%nat in
        k (Cursor (prev c') (rest c') (Some (Str.take n (rest c)))))
  | Eos => if at_end c then k c else None
  | WordB => if at_boundary c then k c else None
  end.
End Matcher.

(** Patterns that contain no capture group. *)
Fixpoint group_free (r : regex) : bool :=
  match r with
  | Eps | Chr _ | Star _ | Eos | WordB => true
  | Seq r1 r2 | Alt r1 r2 => group_free r1 && group_free r2
  | Grp _ => false
  end.

(** The match object, as far as the program reads it: [group(1)]. *)
Definition match_at (r : regex) (pv : option ascii) (s : string)
    : option (option string) :=
  run r (Cursor pv s None) (fun c => Some (group1 c)).

Fixpoint search_from (r : regex) (pv : option ascii) (s : string)
    : option (option string) :=
  match match_at r pv s with
  | Some g => Some g
  | None =>
      match s with
      | String a s' => search_from r (Some a) s'
      | EmptyString => None
      end
  end.

(** [pattern.search(s)]: [None], or [Some g] with [g] group 1. *)
Definition search (r : regex) (s : string) : option (option string) :=
  search_from r None s.

(** [if pattern.search(s)] *)
Definition found (r : regex) (s : string) : bool :=
  match search r s with Some _ => true | None => false end.

(** [m.group(1)] *)
Definition group (m : option string) : string :=
  match m with Some g => g | None => EmptyString end.

(** Abbreviations for the remaining pattern syntax. *)
Definition Plus (p : ascii -> bool) : regex := Seq (Chr p) (Star p).
Definition Opt (r : regex) : regex := Alt r Eps.
Fixpoint Rep (n : nat) (p : ascii -> bool) : regex :=
  match n with
  | O => Eps
  | S n' => Seq (Chr p) (Rep n' p)
  end.
(** A literal; [eq] is [Char.eqb], or [Char.eqb_nocase] under
    [re.IGNORECASE]. *)
Fixpoint Lit (eq : ascii -> ascii -> bool) (s : string) : regex :=
  match s with
  | EmptyString => Eps
  | String a s' => Seq (Chr (eq a)) (Lit eq s')
  end.
Definition lit : string -> regex := Lit Char.eqb.
Definition liti : string -> regex := Lit Char.eqb_nocase.

(** Character classes of the patterns. *)
Definition digit : ascii -> bool := Char.is_digit.
Definition space : ascii -> bool := Char.is_space.
Definition space_or_hyphen (c : ascii) : bool :=
  Char.is_space c || Char.eqb c "-"%char.
Definition digit_or_comma (c : ascii) : bool :=
  Char.is_digit c || Char.eqb c ","%char.
Definition digit_or_dot (c : ascii) : bool :=
  Char.is_digit c || Char.eqb c "."%char.
Definition not_comma_newline (c : ascii) : bool :=
  negb (Char.eqb c ","%char || Char.eqb c Char.newline).
Definition letter_or_space (c : ascii) : bool :=
  Char.is_AZ c || Char.is_az c || Char.is_space c.

End Re.

Import Re.

(** ** The pre-compiled patterns (source lines 25-41) *)

(** [(\d+)[\s-]*(?:bed|licensed\s*bed)], IGNORECASE *)
Definition _RE_BED : regex :=
  Seq (Grp (Plus digit)) (Seq (Star space_or_hyphen)
    (Alt (liti "bed") (Seq (liti "licensed") (Seq (Star space) (liti "bed"))))).

(** [(\d+)[\s-]*unit], IGNORECASE *)
Definition _RE_UNIT : regex :=
  Seq (Grp (Plus digit)) (Seq (Star space_or_hyphen) (liti "unit")).

(** [([\d.]+)\s*%?\s*cap], IGNORECASE *)
Definition _RE_CAP : regex :=
  Seq (Grp (Plus digit_or_dot))
    (Seq (Star space) (Seq (Opt (lit "%")) (Seq (Star space) (liti "cap")))).

(** [\$[\d,]+] *)
Definition _RE_PRICE : regex := Seq (lit "$") (Plus digit_or_comma).

(** [,\s*[A-Z]{2}\s+\d{5}] *)
Definition _RE_ADDR_ZIP : regex :=
  Seq (lit ",") (Seq (Star space) (Seq (Rep 2 Char.is_AZ)
    (Seq (Plus space) (Rep 5 digit)))).

(** [,\s*[A-Z]{2}\s*$] *)
Definition _RE_ADDR_STATE : regex :=
  Seq (lit ",") (Seq (Star space) (Seq (Rep 2 Char.is_AZ) (Seq (Star space) Eos))).

(** [(?:sqft|sq\s*ft|sf)], IGNORECASE *)
Definition sqft_word : regex :=
  Alt (liti "sqft") (Alt (Seq (liti "sq") (Seq (Star space) (liti "ft"))) (liti "sf")).

(** [[\d,]+\s*(?:sqft|sq\s*ft|sf)\b], IGNORECASE *)
Definition _RE_SQFT_CHECK : regex :=
  Seq (Plus digit_or_comma) (Seq (Star space) (Seq sqft_word WordB)).

(** [([\d,]+)\s*(?:sqft|sq\s*ft|sf)], IGNORECASE *)
Definition _RE_SQFT_EXTRACT : regex :=
  Seq (Grp (Plus digit_or_comma)) (Seq (Star space) sqft_word).

(** [(\d+[^,\n]+,\s*[A-Za-z\s]+,\s*[A-Z]{2}\s+\d{5})] *)
Definition _RE_FULL_ADDR : regex :=
  Grp (Seq (Plus digit) (Seq (Plus not_comma_newline) (Seq (lit ",")
    (Seq (Star space) (Seq (Plus letter_or_space) (Seq (lit ",")
      (Seq (Star space) (Seq (Rep 2 Char.is_AZ) (Seq (Plus space) (Rep 5 digit)))))))))).

(** [(\d+)[\s-]*(?:bed|licensed)], IGNORECASE *)
Definition _RE_BED_DETAIL : regex :=
  Seq (Grp (Plus digit)) (Seq (Star space_or_hyphen)
    (Alt (liti "bed") (liti "licensed"))).

(** [(\d+)[\s-]*room], IGNORECASE *)
Definition _RE_ROOM : regex :=
  Seq (Grp (Plus digit)) (Seq (Star space_or_hyphen) (liti "room")).


(** ** Configuration (source lines 45-47) *)

Definition MIN_BEDS : Z := 50.
Definition MIN_UNITS : Z := 40.

(** ** Listing records

    A listing is the dict built at the end of [parse_listing_text]: the
    same thirteen keys every time, [beds] and [units] holding ints and
    the others strings.  The record has one field per key, under the
    key's name. *)

Record listing : Type := Listing {
  address : string;
  price : string;
  beds : Z;
  units : Z;
  sqft : string;
  property_type : string;
  cap_rate : string;
  broker_name : string;
  broker_phone : string;
  broker_email : string;
  broker_company : string;
  listing_url : string;
  state : string;
}.

(** [x or 0] on ints. *)
Definition or_zero (x : Z) : Z := if Z.eqb x 0 then 0%Z else x.

(** ** Field Parser: [parse_listing_text] (source lines 329-414) *)

(** [[l.strip() for l in text.replace(MIDDLE DOT, NEWLINE).split(NEWLINE) if l.strip()]] *)
Definition block_lines (text : string) : list string :=
  List.map Str.strip
    (List.filter (fun l => Str.truthy (Str.strip l))
       (Str.split Char.newline (Str.replace Char.middle_dot Char.newline text))).

(** Lines 344-346: the bed count of the lower-cased block. *)
Definition parse_beds (full_text : string) : Z :=
  match search _RE_BED full_text with
  | Some bed_match => Str.int (group bed_match)
  | None => 0
  end.

(** Lines 348-354: the unit count, with the room count standing in
    when the unit count is still zero. *)
Definition parse_units (full_text : string) : Z :=
  let units :=
    match search _RE_UNIT full_text with
    | Some unit_match => Str.int (group unit_match)
    | None => 0%Z
    end in
  match search _RE_ROOM full_text with
  | Some room_match => if Z.eqb units 0 then Str.int (group room_match) else units
  | None => units
  end.

(** Lines 356-358. *)
Definition parse_cap_rate (full_text : string) : string :=
  match search _RE_CAP full_text with
  | Some cap_match => group cap_match +:+ "% CAP"
  | None => EmptyString
  end.

Definition _SKIP_PHRASES : list string :=
  [ "view details"; "view property"; "view listing"; "view photos";
    "save search"; "sign up"; "log in"; "show map"; "clear filters";
    "results per page"; "save my search"; "see new listings";
    "create alert"; "get alerts"; "view om"; "view flyer" ].

Definition type_keywords : list string :=
  [ "assisted living"; "senior living"; "senior housing";
    "nursing home"; "memory care"; "skilled nursing";
    "continuing care"; "medical care"; "health care";
    "residential care"; "adult care"; "group home" ].

Definition broker_keywords : list string :=
  [ "marcus"; "millichap"; "cbre"; "cushman"; "jll";
    "colliers"; "newmark"; "berkadia"; "ad advisors";
    "fish commercial"; "realty"; "advisors group";
    "capital"; "brokerage"; "keller williams";
    "coldwell banker"; "century 21"; "nai"; "svn" ].

(** The five variables the line loop assigns. *)
Record line_vars : Type := LineVars {
  v_address : string;
  v_price : string;
  v_sqft : string;
  v_prop_type : string;
  v_broker : string;
}.

Definition no_vars : line_vars :=
  LineVars EmptyString EmptyString EmptyString EmptyString EmptyString.

Definition set_price (v : line_vars) (x : string) : line_vars :=
  LineVars (v_address v) x (v_sqft v) (v_prop_type v) (v_broker v).
Definition set_address (v : line_vars) (x : string) : line_vars :=
  LineVars x (v_price v) (v_sqft v) (v_prop_type v) (v_broker v).
Definition set_sqft (v : line_vars) (x : string) : line_vars :=
  LineVars (v_address v) (v_price v) x (v_prop_type v) (v_broker v).
Definition set_prop_type (v : line_vars) (x : string) : line_vars :=
  LineVars (v_address v) (v_price v) (v_sqft v) x (v_broker v).
Definition set_broker (v : line_vars) (x : string) : line_vars :=
  LineVars (v_address v) (v_price v) (v_sqft v) (v_prop_type v) x.

(** One turn of the loop at lines 364-394: the [if]/[elif] chain. *)
Definition classify_line (v : line_vars) (line : string) : line_vars :=
  let ll := Str.strip (Str.lower line) in
  let unset (x : string) := negb (Str.truthy x) in
  if Str.contains_any _SKIP_PHRASES ll then v
  else if found _RE_PRICE line && unset (v_price v) then
    set_price v (Str.strip line)
  else if Str.contains "price not disclosed" ll && unset (v_price v) then
    set_price v "Price Not Disclosed"
  else if Str.contains "call for" ll && Str.contains "price" ll && unset (v_price v) then
    set_price v "Call for Price"
  else if Str.contains "negotiable" ll && unset (v_price v) then
    set_price v "Negotiable"
  else if found _RE_ADDR_ZIP line && unset (v_address v) then
    set_address v (Str.strip line)
  else if found _RE_ADDR_STATE line && unset (v_address v) then
    set_address v (Str.strip line)
  else if found _RE_SQFT_CHECK ll && unset (v_sqft v) then
    match search _RE_SQFT_EXTRACT ll with
    | Some sf_match => set_sqft v (group sf_match +:+ " SF")
    | None => v
    end
  else if Str.contains_any type_keywords ll && unset (v_prop_type v) then
    set_prop_type v (Str.strip line)
  else if Str.contains_any broker_keywords ll && unset (v_broker v) then
    set_broker v (Str.strip line)
  else v.

(** The loop of lines 397-404, entered with [prop_type] empty: the
    first long line without a dollar sign, or [prop_type] as it was. *)
Fixpoint first_long_line (lines : list string) : string :=
  match lines with
  | [] => EmptyString
  | line :: lines' =>
      let ll := Str.lower line in
      if Str.contains_any ["view"; "save"; "sign up"; "show map"; "clear"; "results per"] ll
      then first_long_line lines'
      else if Nat.ltb 15 (String.length line) && negb (Str.contains "$" line)
      then Str.strip line
      else first_long_line lines'
  end.

(** [parse_listing_text(text, link, state)]; [None] is Python's. *)
Definition parse_listing_text (text link state : string) : option listing :=
  let lines := block_lines text in
  match lines with
  | [] => None
  | _ =>
    let full_text := Str.lower text in
    let beds := parse_beds full_text in
    let units := parse_units full_text in
    let cap_rate := parse_cap_rate full_text in
    let v := fold_left classify_line lines no_vars in
    let prop_type :=
      if negb (Str.truthy (v_address v)) && negb (Str.truthy (v_prop_type v))
      then first_long_line lines else v_prop_type v in
    if negb (Str.truthy (v_price v)) && Z.eqb beds 0 && Z.eqb units 0 then None
    else Some {|
      address := v_address v; price := v_price v; beds := beds; units := units;
      sqft := v_sqft v; property_type := prop_type; cap_rate := cap_rate;
      broker_name := v_broker v; broker_phone := EmptyString;
      broker_email := EmptyString; broker_company := EmptyString;
      listing_url := link; state := state |}
  end.

(** ** Dedup and filter engine *)

(** [meets_criteria(lst)] (source lines 587-592) *)
Definition meets_criteria (lst : listing) : bool :=
  let beds := or_zero (beds lst) in
  let units := or_zero (units lst) in
  if Z.eqb beds 0 && Z.eqb units 0 then true
  else Z.geb beds MIN_BEDS || Z.geb units MIN_UNITS.

(** The guard of the second loop of the size filter (line 763), true
    for the records that loop skips. *)
Definition both_known_and_small (l : listing) : bool :=
  let beds := or_zero (beds l) in
  let units := or_zero (units l) in
  Z.gtb beds 0 && Z.ltb beds MIN_BEDS && Z.gtb units 0 && Z.ltb units MIN_UNITS.

(** [filtered] and [final] of [main] (source lines 758-765). *)
Definition filtered (all_listings : list listing) : list listing :=
  List.filter meets_criteria all_listings.

Definition final (all_listings : list listing) : list listing :=
  List.filter (fun l => negb (both_known_and_small l)) (filtered all_listings).

(** The loop shared by the two dedup passes:
    [[
      seen = set(); out = []
      for l in listings:
          key = ...
          if key and key not in seen:
              seen.add(key); out.append(l)
    ]] *)
Section FirstSeen.
Variable key_of : listing -> string.

Fixpoint first_seen (seen : gset string) (listings : list listing) : list listing :=
  match listings with
  | [] => []
  | l :: rest =>
      let key := key_of l in
      if Str.truthy key && negb (bool_decide (key ∈ seen))
      then l :: first_seen ({[key]} ∪ seen) rest
      else first_seen seen rest
  end.
End FirstSeen.

(** Line 599:
    [l.get("listing_url", "") or l.get("address", "").strip().lower() or l.get("price", "")] *)
Definition dedupe_key (l : listing) : string :=
  Str.or (listing_url l) (Str.or (Str.lower (Str.strip (address l))) (price l)).

(** [dedupe(listings)] (source lines 595-603) *)
Definition dedupe (listings : list listing) : list listing :=
  first_seen dedupe_key ∅ listings.

(** Line 320: [l.get("listing_url") or l.get("address", "")] *)
Definition page_key (l : listing) : string :=
  Str.or (listing_url l) (address l).

(** The end of [scrape_search_page] (source lines 317-326): [unique]
    computed from the [listings] parsed on the page. *)
Definition scrape_search_page_unique (listings : list listing) : list listing :=
  first_seen page_key ∅ listings.

(** [listings] of [scrape_search_page] (lines 267-315): whichever of the
    three branches runs, each block it found on the page goes through
    [parse_listing_text(text, link, state)] and the result is appended
    unless it is [None].  The blocks, each a text and a link (empty when
    none was found), are what the browser hands over. *)
Definition page_listings (blocks : list (string * string)) (state : string)
    : list listing :=
  omap (fun '(text, link) => parse_listing_text text link state) blocks.

Definition scrape_search_page (blocks : list (string * string)) (state : string)
    : list listing :=
  scrape_search_page_unique (page_listings blocks state).

(** ** Detail Enricher *)

(** The [info] dict of [scrape_detail_page] (line 418): ten keys. *)
Record detail_info : Type := Info {
  info_broker_name : string;
  info_broker_phone : string;
  info_broker_email : string;
  info_broker_company : string;
  info_beds : Z;
  info_units : Z;
  info_sqft : string;
  info_address : string;
  info_cap_rate : string;
  info_property_type : string;
}.

(** Lines 512-514. *)
Definition detail_beds (body_lower : string) : Z :=
  match search _RE_BED_DETAIL body_lower with
  | Some bed_match => Str.int (group bed_match)
  | None => 0
  end.

(** Lines 515-521; [not info[units]] holds when the count is 0. *)
Definition detail_units (body_lower : string) : Z :=
  let units :=
    match search _RE_UNIT body_lower with
    | Some unit_match => Str.int (group unit_match)
    | None => 0%Z
    end in
  if Z.eqb units 0 then
    match search _RE_ROOM body_lower with
    | Some room_match => Str.int (group room_match)
    | None => units
    end
  else units.

(** Lines 522-524. *)
Definition detail_sqft (body_lower : string) : string :=
  match search _RE_SQFT_EXTRACT body_lower with
  | Some sf_match => group sf_match +:+ " SF"
  | None => EmptyString
  end.

(** Lines 527-529. *)
Definition detail_address (body_text : string) : string :=
  match search _RE_FULL_ADDR body_text with
  | Some addr_match => Str.strip (group addr_match)
  | None => EmptyString
  end.

(** Lines 531-533. *)
Definition detail_cap_rate (body_lower : string) : string :=
  match search _RE_CAP body_lower with
  | Some cap_match => group cap_match +:+ "% CAP"
  | None => EmptyString
  end.

(** [scrape_detail_page] from line 510 on: the fields read off the
    page text.  The four broker fields come from the page's elements
    (lines 435-508) and are arguments here. *)
Definition scrape_detail_page
    (broker_name broker_phone broker_email broker_company body_text : string)
    : detail_info :=
  let body_lower := Str.lower body_text in
  {| info_broker_name := broker_name; info_broker_phone := broker_phone;
     info_broker_email := broker_email; info_broker_company := broker_company;
     info_beds := detail_beds body_lower;
     info_units := detail_units body_lower;
     info_sqft := detail_sqft body_lower;
     info_address := detail_address body_text;
     info_cap_rate := detail_cap_rate body_lower;
     info_property_type := EmptyString |}.

(** Dict access by key, typed: [beds] and [units] are ints, the other
    keys strings. *)
Inductive key : Type :=
| k_address | k_price | k_beds | k_units | k_sqft | k_property_type
| k_cap_rate | k_broker_name | k_broker_phone | k_broker_email
| k_broker_company | k_listing_url | k_state.

Definition value (k : key) : Type :=
  match k with
  | k_beds | k_units => Z
  | _ => string
  end.

(** Truth value of a dict value: a non-empty string, a nonzero int. *)
Definition truthy (k : key) : value k -> bool :=
  match k with
  | k_beds => fun z => negb (Z.eqb z 0)
  | k_units => fun z => negb (Z.eqb z 0)
  | k_address => Str.truthy | k_price => Str.truthy | k_sqft => Str.truthy
  | k_property_type => Str.truthy | k_cap_rate => Str.truthy
  | k_broker_name => Str.truthy | k_broker_phone => Str.truthy
  | k_broker_email => Str.truthy | k_broker_company => Str.truthy
  | k_listing_url => Str.truthy | k_state => Str.truthy
  end.

(** [lst.get(k)] *)
Definition get (k : key) : listing -> value k :=
  match k with
  | k_address => address | k_price => price | k_beds => beds
  | k_units => units | k_sqft => sqft | k_property_type => property_type
  | k_cap_rate => cap_rate | k_broker_name => broker_name
  | k_broker_phone => broker_phone | k_broker_email => broker_email
  | k_broker_company => broker_company | k_listing_url => listing_url
  | k_state => state
  end.

(** [lst[k] = v] *)
Definition set (k : key) : value k -> listing -> listing :=
  match k with
  | k_address => fun v l => Listing v (price l) (beds l) (units l) (sqft l) (property_type l) (cap_rate l) (broker_name l) (broker_phone l) (broker_email l) (broker_company l) (listing_url l) (state l)
  | k_price => fun v l => Listing (address l) v (beds l) (units l) (sqft l) (property_type l) (cap_rate l) (broker_name l) (broker_phone l) (broker_email l) (broker_company l) (listing_url l) (state l)
  | k_beds => fun v l => Listing (address l) (price l) v (units l) (sqft l) (property_type l) (cap_rate l) (broker_name l) (broker_phone l) (broker_email l) (broker_company l) (listing_url l) (state l)
  | k_units => fun v l => Listing (address l) (price l) (beds l) v (sqft l) (property_type l) (cap_rate l) (broker_name l) (broker_phone l) (broker_email l) (broker_company l) (listing_url l) (state l)
  | k_sqft => fun v l => Listing (address l) (price l) (beds l) (units l) v (property_type l) (cap_rate l) (broker_name l) (broker_phone l) (broker_email l) (broker_company l) (listing_url l) (state l)
  | k_property_type => fun v l => Listing (address l) (price l) (beds l) (units l) (sqft l) v (cap_rate l) (broker_name l) (broker_phone l) (broker_email l) (broker_company l) (listing_url l) (state l)
  | k_cap_rate => fun v l => Listing (address l) (price l) (beds l) (units l) (sqft l) (property_type l) v (broker_name l) (broker_phone l) (broker_email l) (broker_company l) (listing_url l) (state l)
  | k_broker_name => fun v l => Listing (address l) (price l) (beds l) (units l) (sqft l) (property_type l) (cap_rate l) v (broker_phone l) (broker_email l) (broker_company l) (listing_url l) (state l)
  | k_broker_phone => fun v l => Listing (address l) (price l) (beds l) (units l) (sqft l) (property_type l) (cap_rate l) (broker_name l) v (broker_email l) (broker_company l) (listing_url l) (state l)
  | k_broker_email => fun v l => Listing (address l) (price l) (beds l) (units l) (sqft l) (property_type l) (cap_rate l) (broker_name l) (broker_phone l) v (broker_company l) (listing_url l) (state l)
  | k_broker_company => fun v l => Listing (address l) (price l) (beds l) (units l) (sqft l) (property_type l) (cap_rate l) (broker_name l) (broker_phone l) (broker_email l) v (listing_url l) (state l)
  | k_listing_url => fun v l => Listing (address l) (price l) (beds l) (units l) (sqft l) (property_type l) (cap_rate l) (broker_name l) (broker_phone l) (broker_email l) (broker_company l) v (state l)
  | k_state => fun v l => Listing (address l) (price l) (beds l) (units l) (sqft l) (property_type l) (cap_rate l) (broker_name l) (broker_phone l) (broker_email l) (broker_company l) (listing_url l) v
  end.

(** [detail[k]] for the keys of [detail]; the three keys [detail] does
    not have give [None]. *)
Definition detail_get (k : key) : detail_info -> option (value k) :=
  match k with
  | k_broker_name => fun d => Some (info_broker_name d)
  | k_broker_phone => fun d => Some (info_broker_phone d)
  | k_broker_email => fun d => Some (info_broker_email d)
  | k_broker_company => fun d => Some (info_broker_company d)
  | k_beds => fun d => Some (info_beds d)
  | k_units => fun d => Some (info_units d)
  | k_sqft => fun d => Some (info_sqft d)
  | k_address => fun d => Some (info_address d)
  | k_cap_rate => fun d => Some (info_cap_rate d)
  | k_property_type => fun d => Some (info_property_type d)
  | k_price => fun _ => None
  | k_listing_url => fun _ => None
  | k_state => fun _ => None
  end.

(** [for k in detail]: the keys in the order of the dict literal. *)
Definition detail_keys : list key :=
  [ k_broker_name; k_broker_phone; k_broker_email; k_broker_company;
    k_beds; k_units; k_sqft; k_address; k_cap_rate; k_property_type ].

(** One turn of the loop at lines 753-755:
    [if detail[k] and not lst.get(k): lst[k] = detail[k]] *)
Definition merge_key (detail : detail_info) (lst : listing) (k : key) : listing :=
  match detail_get k detail with
  | Some v => if truthy k v && negb (truthy k (get k lst)) then set k v lst else lst
  | None => lst
  end.

(** The enrichment of one listing by its detail page (lines 752-755). *)
Definition enrich (lst : listing) (detail : detail_info) : listing :=
  fold_left (merge_key detail) detail_keys lst.

(** The body of the loop over [all_listings] in [main] (lines 743-756):
    a listing without URL, or with broker phone, email and name already
    known, is left alone; any other is enriched from its detail page.
    [detail_of] stands for the visit of the page behind a URL. *)
Definition enrich_one (detail_of : string -> detail_info) (lst : listing) : listing :=
  let url := listing_url lst in
  if negb (Str.truthy url) then lst
  else if Str.truthy (broker_phone lst) && Str.truthy (broker_email lst)
          && Str.truthy (broker_name lst)
  then lst
  else enrich lst (detail_of url).

Definition enrich_all (detail_of : string -> detail_info)
    (all_listings : list listing) : list listing :=
  List.map (enrich_one detail_of) all_listings.

(** ** Region resolution (source lines 83-130) *)

(** [re.sub(r"[^a-z]", "", s)] *)
Fixpoint keep_az (s : string) : string :=
  match s with
  | EmptyString => EmptyString
  | String c s' => if Char.is_az c then String c (keep_az s') else keep_az s'
  end.

Definition _normalize_state_token (s : string) : string :=
  keep_az (Str.lower s).

(** The dict literal, as its items in order. *)
Definition _US_STATE_CODES : list (string * string) :=
  [ ("AL", "Alabama"); ("AK", "Alaska"); ("AZ", "Arizona"); ("AR", "Arkansas"); ("CA", "California");
    ("CO", "Colorado"); ("CT", "Connecticut"); ("DE", "Delaware"); ("FL", "Florida"); ("GA", "Georgia");
    ("HI", "Hawaii"); ("ID", "Idaho"); ("IL", "Illinois"); ("IN", "Indiana"); ("IA", "Iowa");
    ("KS", "Kansas"); ("KY", "Kentucky"); ("LA", "Louisiana"); ("ME", "Maine"); ("MD", "Maryland");
    ("MA", "Massachusetts"); ("MI", "Michigan"); ("MN", "Minnesota"); ("MS", "Mississippi"); ("MO", "Missouri");
    ("MT", "Montana"); ("NE", "Nebraska"); ("NV", "Nevada"); ("NH", "New Hampshire"); ("NJ", "New Jersey");
    ("NM", "New Mexico"); ("NY", "New York"); ("NC", "North Carolina"); ("ND", "North Dakota"); ("OH", "Ohio");
    ("OK", "Oklahoma"); ("OR", "Oregon"); ("PA", "Pennsylvania"); ("RI", "Rhode Island"); ("SC", "South Carolina");
    ("SD", "South Dakota"); ("TN", "Tennessee"); ("TX", "Texas"); ("UT", "Utah"); ("VT", "Vermont");
    ("VA", "Virginia"); ("WA", "Washington"); ("WV", "West Virginia"); ("WI", "Wisconsin"); ("WY", "Wyoming");
    ("DC", "District of Columbia") ].

(** The misspellings added at lines 106-108. *)
Definition misspellings : list (string * string) :=
  [ ("Massachusets", "MA"); ("Minesota", "MN"); ("Okakhoma", "OK") ].

(** Lines 100-108: the alias dict, filled in the order of the source. *)
Definition _STATE_ALIASES : gmap string string :=
  let from_codes :=
    fold_left
      (fun (m : gmap string string) '(_code, _name) =>
         <[_normalize_state_token _name := _code]>
           (<[_normalize_state_token _code := _code]> m))
      _US_STATE_CODES ∅ in
  fold_left
    (fun (m : gmap string string) '(spelling, _code) =>
       <[_normalize_state_token spelling := _code]> m)
    misspellings from_codes.

(** What a call either returns or raises. *)
Inductive outcome (A : Type) : Type :=
| Return (a : A)
| ValueError (message : string).
Arguments Return {A} a.
Arguments ValueError {A} message.

(** One turn of the loop at lines 113-120 on [(codes, unknown)]. *)
Definition expand_step (acc : list string * list string) (raw : string)
    : list string * list string :=
  let '(codes, unknown) := acc in
  let key := _normalize_state_token raw in
  match _STATE_ALIASES !! key with
  | Some code =>
      if Str.truthy code then
        if bool_decide (code ∈ codes) then (codes, unknown)
        else (codes ++ [code], unknown)
      else (codes, unknown ++ [raw])
  | None => (codes, unknown ++ [raw])
  end.

Definition unknown_states_message (unknown : list string) : string :=
  "Unknown state(s): " +:+ Str.join ", " unknown
  +:+ ". Use a 2-letter code (e.g., 'PA') or full state name (e.g., 'Pennsylvania').".

(** [_expand_states(states_input)] (source lines 110-127) *)
Definition _expand_states (states_input : list string) : outcome (list string) :=
  let '(codes, unknown) := fold_left expand_step states_input ([], []) in
  match unknown with
  | [] => Return codes
  | _ :: _ => ValueError (unknown_states_message unknown)
  end.

Definition STATES_INPUT : list string :=
  [ "Alabama"; "Arkansas"; "Arizona"; "California"; "COlorado"; "Idaho";
    "Illinois"; "Maryland"; "Massachusets"; "Michigan"; "Minesota";
    "Montana"; "Nebraska"; "Nevada"; "New Hampshire"; "NOrth Carolina";
    "Ohio"; "Okakhoma"; "Oregon"; "PA"; "RI"; "SC"; "TN"; "TX"; "UT";
    "VT"; "Wisconsin"; "WY" ].

(** ** Reference definitions and sample data *)

(** The natural key in the words of the specification: the source URL
    if non-empty, else the lower-cased trimmed address, else the price. *)
Definition natural_key (l : listing) : string :=
  if negb (Str.is_empty (listing_url l)) then listing_url l
  else if negb (Str.is_empty (Str.lower (Str.strip (address l))))
       then Str.lower (Str.strip (address l))
       else price l.

Definition listing_with_phone : listing :=
  Listing "12 Oak St, Columbus, OH 43004" "$1,000,000" 60 0 "" "" "" ""
          "999-9999" "" "" "https://www.loopnet.com/Listing/1" "OH".

Definition detail_with_phone : detail_info :=
  Info "Ann Lee" "555-1234" "ann@example.com" "CBRE" 80 70 "9,000 SF" "" "" "".

(** A block with a bed count and nothing else. *)
Definition bed_only_listing : listing :=
  Listing "" "" 60 0 "" "" "" "" "" "" "" "" "".

(** Two blocks of one page, without link, whose addresses differ in
    case only, and the records the parser makes of them. *)
Definition oak_text_1 : string :=
  "$900,000" +:+ String Char.newline "12 Oak St, Columbus, OH".
Definition oak_text_2 : string :=
  "$950,000" +:+ String Char.newline "12 OAK ST, COLUMBUS, OH".
Definition oak_listing_1 : listing :=
  Listing "12 Oak St, Columbus, OH" "$900,000" 0 0 "" "" "" "" "" "" "" "" "OH".
Definition oak_listing_2 : listing :=
  Listing "12 OAK ST, COLUMBUS, OH" "$950,000" 0 0 "" "" "" "" "" "" "" "" "OH".

(** A block that is a price and nothing else. *)
Definition price_only_listing : listing :=
  Listing "" "$1,000,000" 0 0 "" "" "" "" "" "" "" "" "OH".

(** The block of the end-to-end scenario. *)
Definition scenario_text : string :=
  "Sunrise Senior Living" +:+ String Char.newline
  ("120 Bed Assisted Living" +:+ String Char.newline
  ("$12,500,000" +:+ String Char.newline
  ("456 Main St, Springfield, IL 62704" +:+ String Char.newline
   "Marcus & Millichap"))).




(** [_STATE_ALIASES.get(key)] for the key of a token, as line 114-115. *)
Definition resolve (raw : string) : option string :=
  _STATE_ALIASES !! _normalize_state_token raw.

Definition unresolved (raw : string) : bool :=
  match resolve raw with Some _ => false | None => true end.

(** A token is an alias of a code when, letters only and case aside, it
    reads as the code, as the state name of the code, or as a declared
    misspelling for the code. *)
Definition valid_alias (raw code : string) : Prop :=
  (exists name, In (code, name) _US_STATE_CODES
     /\ (_normalize_state_token raw = _normalize_state_token code
         \/ _normalize_state_token raw = _normalize_state_token name))
  \/ (exists spelling, In (spelling, code) misspellings
        /\ _normalize_state_token raw = _normalize_state_token spelling).

(** Every alias the table is built from, with its code. *)
Definition alias_items : list (string * string) :=
  flat_map (fun '(code, name) =>
              [(_normalize_state_token code, code);
               (_normalize_state_token name, code)]) _US_STATE_CODES
  ++ List.map (fun '(spelling, code) => (_normalize_state_token spelling, code))
       misspellings.

(** The [codes] half of the loop of [_expand_states]. *)
Definition add_code (codes : list string) (raw : string) : list string :=
  match resolve raw with
  | Some code => if bool_decide (code ∈ codes) then codes else codes ++ [code]
  | None => codes
  end.


(** * The rest of the program *)

(** ** Search URLs (source lines 131-134) *)

(** The f-string of line 132 for one state code. *)
Definition search_url (st : string) : string :=
  "https://www.loopnet.com/search/assisted-living-facilities/"
  +:+ Str.lower st +:+ "/for-sale/".

(** [SEARCH_URLS], from the list [STATES] that [_expand_states] returned. *)
Definition SEARCH_URLS (STATES : list string) : list string :=
  List.map search_url STATES.

(** Two upper-case letters A-Z. *)
Definition is_state_code (code : string) : bool :=
  match code with
  | String a (String b EmptyString) => Char.is_AZ a && Char.is_AZ b
  | _ => false
  end.

(** A text of white space and middle dots only. *)
Definition is_blank (text : string) : bool :=
  Str.all_chars (fun c => Char.is_space c || Char.eqb c Char.middle_dot) text.

(** The price strings the parser writes itself. *)
Definition price_phrases : list string :=
  [ "Price Not Disclosed"; "Call for Price"; "Negotiable" ].

(** A new line, a space, a middle dot, a tab and a no-break space. *)
Definition blank_text : string :=
  String Char.newline (String " " (String Char.middle_dot
    (String "009" (String "160" EmptyString)))).

(** What one turn of the line loop can do: nothing, or fill exactly one
    variable that was empty. *)
Inductive line_effect (v : line_vars) (line : string) : line_vars -> Prop :=
| effect_none : line_effect v line v
| effect_price_line :
    found _RE_PRICE line = true -> v_price v = EmptyString ->
    line_effect v line (set_price v (Str.strip line))
| effect_price_phrase (x : string) :
    In x price_phrases -> v_price v = EmptyString ->
    line_effect v line (set_price v x)
| effect_address :
    found _RE_ADDR_ZIP line || found _RE_ADDR_STATE line = true ->
    v_address v = EmptyString ->
    line_effect v line (set_address v (Str.strip line))
| effect_sqft (m : option string) :
    search _RE_SQFT_EXTRACT (Str.strip (Str.lower line)) = Some m ->
    v_sqft v = EmptyString ->
    line_effect v line (set_sqft v (group m +:+ " SF"))
| effect_prop_type :
    v_prop_type v = EmptyString ->
    line_effect v line (set_prop_type v (Str.strip line))
| effect_broker :
    v_broker v = EmptyString ->
    line_effect v line (set_broker v (Str.strip line)).


(** A block with every field, and the record parsed from it. *)
Definition manor_text : string :=
  "Oak Manor Assisted Living" +:+ String Char.newline
  ("80 beds " +:+ String Char.middle_dot
  (" 45 units" +:+ String Char.newline
  ("$4,250,000" +:+ String Char.newline
  ("12,500 SF" +:+ String Char.newline
  ("7.25% cap" +:+ String Char.newline
  ("100 Elm St, Dayton, OH 45402" +:+ String Char.newline
   "CBRE")))))).

Definition manor_listing : listing :=
  {| address := "100 Elm St, Dayton, OH 45402"; price := "$4,250,000";
     beds := 80; units := 45; sqft := "12,500 SF";
     property_type := "Oak Manor Assisted Living"; cap_rate := "7.25% CAP";
     broker_name := "CBRE"; broker_phone := EmptyString;
     broker_email := EmptyString; broker_company := EmptyString;
     listing_url := "https://www.loopnet.com/Listing/7"; state := "OH" |}.

(** The text does not begin with white space. *)
Definition no_leading_space (s : string) : bool :=
  match s with
  | EmptyString => true
  | String c _ => negb (Char.is_space c)
  end.

(** A number the parser formats: a non-empty run of characters of
    [class] followed by [unit]. *)
Definition formatted (class : ascii -> bool) (unit field : string) : Prop :=
  field = EmptyString \/
  exists d, field = d +:+ unit /\ d <> EmptyString /\ Str.all_chars class d = true.

(** Where the variables of the line loop can come from, given the
    lines of the block. *)
Definition from_lines (lines : list string) (v : line_vars) : Prop :=
  (v_price v = EmptyString \/ In (v_price v) price_phrases
   \/ (In (v_price v) lines /\ found _RE_PRICE (v_price v) = true)) /\
  (v_address v = EmptyString
   \/ (In (v_address v) lines
       /\ found _RE_ADDR_ZIP (v_address v) || found _RE_ADDR_STATE (v_address v) = true)) /\
  formatted digit_or_comma " SF" (v_sqft v) /\
  (v_prop_type v = EmptyString \/ In (v_prop_type v) lines) /\
  (v_broker v = EmptyString \/ In (v_broker v) lines).

(** [main] from line 738 to line 765, on the listings collected from
    all pages: cross-page dedup, enrichment, size filter.  The result
    is what [write_excel] receives. *)
Definition main_after_scrape (detail_of : string -> detail_info)
    (all_listings : list listing) : list listing :=
  final (enrich_all detail_of (dedupe all_listings)).

(** A list-page record with 60 beds and a detail page that finds 10. *)
Definition sixty_bed_listing : listing :=
  Listing "" "$3,000,000" 60 0 "" "" "" "" "" "" ""
          "https://www.loopnet.com/Listing/9" "OH".
Definition ten_bed_detail : detail_info :=
  Info "" "" "" "" 10 12 "" "" "" "".

(** [all_listings] as the page loop of [main] builds it (line 731):
    the records of every page scraped, in order.  A page is given by the
    blocks found on it and the state it was scraped under. *)
Definition collected (pages : list (list (string * string) * string))
    : list listing :=
  flat_map (fun '(blocks, state) => scrape_search_page blocks state) pages.

(** ** [extract_number] (source lines 196-205) *)





(** ** Listing Block Extractor: the three branches of
    [scrape_search_page] (source lines 221-315) *)

(** [/Listing/\d|/listing/\d|/property/], IGNORECASE *)
Definition _RE_PROPERTY_PATH : regex :=
  Alt (Seq (liti "/Listing/") (Chr digit))
    (Alt (Seq (liti "/listing/") (Chr digit)) (liti "/property/")).

(** [(?:View\s+(?:Details|Property|Listing|Photos|OM))\s*MIDDLE-DOT?\s*],
    IGNORECASE *)
Definition _RE_VIEW_SPLIT : regex :=
  Seq (Seq (liti "View") (Seq (Plus space)
         (Alt (liti "Details") (Alt (liti "Property") (Alt (liti "Listing")
            (Alt (liti "Photos") (liti "OM")))))))
    (Seq (Star space) (Seq (Opt (Chr (Char.eqb Char.middle_dot))) (Star space))).

(** How many characters a match at this place takes. *)
Definition match_length (r : regex) (pv : option ascii) (s : string) : option nat :=
  run r (Cursor pv s None)
      (fun c => Some (String.length s - String.length (rest c))%nat).

(** [pattern.split(s)] for a pattern without groups that matches no
    empty string: the text between the matches, found left to right.
    [skip] counts the characters of the current match still to pass. *)
Fixpoint split_from (r : regex) (pv : option ascii) (s : string) (skip : nat)
    : list string :=
  match skip with
  | S skip' =>
      match s with
      | String a s' => split_from r (Some a) s' skip'
      | EmptyString => [EmptyString]
      end
  | O =>
      match s with
      | EmptyString => [EmptyString]
      | String a s' =>
          match match_length r pv s with
          | Some (S n) => EmptyString :: split_from r (Some a) s' n
          | _ =>
              match split_from r (Some a) s' O with
              | piece :: pieces => String a piece :: pieces
              | [] => [String a EmptyString]
              end
          end
      end
  end.

Definition re_split (r : regex) (s : string) : list string :=
  split_from r None s O.

(** Line 258 and line 280: [h if h.startswith("http") else "https://www.loopnet.com" + h] *)
Definition absolute_url (h : string) : string :=
  if Str.startswith "http" h then h else "https://www.loopnet.com" +:+ h.

(** Lines 274-282: the link of a card.  [a] is the href of the first
    listing anchor inside the card, [None] when the card has none. *)
Definition card_link (a : option string) : string :=
  match a with
  | Some h =>
      if negb (Str.contains_any ["search"; "?types="] (Str.lower h))
      then absolute_url h else EmptyString
  | None => EmptyString
  end.

(** Lines 269-287: the blocks of the card branch.  A card is its text
    and the href of its listing anchor. *)
Definition card_blocks (cards : list (string * option string))
    : list (string * string) :=
  omap (fun '(text, a) =>
          if Nat.ltb (String.length (Str.strip text)) 10 then None
          else Some (text, card_link a)) cards.

Definition link_skips : list string :=
  [ "senior-housing"; "senior-living"; "assisted-living";
    "?types="; "?propertyTypes="; "/search/" ].

(** Lines 249-260: the property links among all anchors of the page.
    An anchor is its href and the text around it (read at lines
    295-298); the result pairs that text with the absolute URL. *)
Fixpoint property_links (seen : gset string) (all_links : list (string * string))
    : list (string * string) :=
  match all_links with
  | [] => []
  | (href, text) :: rest =>
      if found _RE_PROPERTY_PATH href && negb (bool_decide (href ∈ seen)) then
        if Str.contains_any link_skips (Str.lower href)
        then property_links seen rest
        else (text, absolute_url href) :: property_links ({[href]} ∪ seen) rest
      else property_links seen rest
  end.

(** Lines 290-305: the blocks of the link branch. *)
Definition link_blocks (links : list (string * string)) : list (string * string) :=
  List.filter (fun '(text, _) => negb (Nat.ltb (String.length (Str.strip text)) 5))
              links.

(** Lines 309-315: the blocks of the whole-page branch. *)
Definition text_blocks (body_text : string) : list (string * string) :=
  omap (fun block =>
          let block := Str.strip block in
          if Nat.ltb 20 (String.length block)
             && (Str.contains "$" block
                 || Str.contains "bed" (Str.lower block)
                 || Str.contains "unit" (Str.lower block))
          then Some (block, EmptyString) else None)
       (re_split _RE_VIEW_SPLIT body_text).

(** The choice between the branches (lines 246, 267, 289, 306).
    [cards] are the elements of the first card selector that matched
    more than one element, or none. *)
Definition page_blocks (cards : list (string * option string))
    (all_links : list (string * string)) (body_text : string)
    : list (string * string) :=
  match cards with
  | _ :: _ => card_blocks cards
  | [] =>
      match property_links ∅ all_links with
      | (_ :: _) as links => link_blocks links
      | [] => text_blocks body_text
      end
  end.

(** [scrape_search_page(page, state)], the page given by what the
    browser finds on it. *)
Definition scrape_search_page_of (cards : list (string * option string))
    (all_links : list (string * string)) (body_text state : string)
    : list listing :=
  scrape_search_page (page_blocks cards all_links body_text) state.

(** ** The page loop of [main] (source lines 724-736) *)

Definition MAX_PAGES : nat := 12.

(** One run through the result pages of a region.  [site n] is what
    the run meets at the turn with [page_num = n]: the records
    [scrape_search_page] returns and whether [click_next] then succeeds
    (asked only when there were records).  The result is the records
    added to [all_listings] and the number of pages scraped.  [fuel] is
    the number of turns the [while] condition still allows. *)
Fixpoint page_loop (site : nat -> list listing * bool) (fuel page_num : nat)
    : list listing * nat :=
  match fuel with
  | O => ([], O)
  | S fuel' =>
      let '(cards, has_next) := site page_num in
      match cards with
      | [] => ([], 1%nat)
      | _ :: _ =>
          if has_next then
            let '(more, n) := page_loop site fuel' (S page_num) in
            (cards ++ more, S n)
          else (cards, 1%nat)
      end
  end.

(** [page_num = 1; while page_num <= MAX_PAGES: ...] *)
Definition scrape_region (site : nat -> list listing * bool) : list listing * nat :=
  page_loop site MAX_PAGES 1.

(** A result set of three pages, the last without a next button. *)
Definition three_page_site (n : nat) : list listing * bool :=
  match n with
  | 1%nat => ([oak_listing_1], true)
  | 2%nat => ([oak_listing_2], true)
  | 3%nat => ([price_only_listing], false)
  | _ => ([bed_only_listing], true)
  end.

(** ** Detail Enricher: the contact fields of [scrape_detail_page]
    (source lines 433-508) *)

Definition space_dot_hyphen (c : ascii) : bool :=
  Char.is_space c || Char.eqb c "."%char || Char.eqb c "-"%char.
Definition word_dot_plus_hyphen (c : ascii) : bool :=
  Char.is_word c || Char.eqb c "."%char || Char.eqb c "+"%char || Char.eqb c "-"%char.
Definition word_or_hyphen (c : ascii) : bool :=
  Char.is_word c || Char.eqb c "-"%char.
Definition word_or_dot (c : ascii) : bool :=
  Char.is_word c || Char.eqb c "."%char.
Definition digit_paren_plus (c : ascii) : bool :=
  Char.is_digit c || Char.eqb c "("%char || Char.eqb c "+"%char.

(** [\(?\d{3}\)?[\s.-]?\d{3}[\s.-]?\d{4}] *)
Definition _RE_PHONE : regex :=
  Seq (Opt (lit "(")) (Seq (Rep 3 digit) (Seq (Opt (lit ")"))
    (Seq (Opt (Chr space_dot_hyphen)) (Seq (Rep 3 digit)
      (Seq (Opt (Chr space_dot_hyphen)) (Rep 4 digit)))))).

(** [[\w.+-]+@[\w-]+\.[\w.]+] *)
Definition _RE_EMAIL : regex :=
  Seq (Plus word_dot_plus_hyphen) (Seq (lit "@")
    (Seq (Plus word_or_hyphen) (Seq (lit ".") (Plus word_or_dot)))).

(** [^[\d(+]]; the program uses it with [match], which tries the start
    of the text only, so the anchor adds nothing. *)
Definition _RE_STARTS_WITH_DIGIT : regex := Chr digit_paren_plus.

(** [if pattern.match(s)] *)
Definition matches_start (r : regex) (s : string) : bool :=
  match match_at r None s with Some _ => true | None => false end.

(** [pattern.findall(s)] for a pattern without groups that matches no
    empty string: the matched texts, left to right, not overlapping.
    [skip] counts the characters of the current match still to pass. *)
Fixpoint findall_from (r : regex) (pv : option ascii) (s : string) (skip : nat)
    : list string :=
  match s with
  | EmptyString => []
  | String a s' =>
      match skip with
      | S skip' => findall_from r (Some a) s' skip'
      | O =>
          match match_length r pv s with
          | Some (S n) => Str.take (S n) s :: findall_from r (Some a) s' n
          | _ => findall_from r (Some a) s' O
          end
      end
  end.

Definition findall (r : regex) (s : string) : list string :=
  findall_from r None s O.

(** The least number of characters a match of the pattern takes. *)
Fixpoint min_length (r : regex) : nat :=
  match r with
  | Eps | Star _ | Eos | WordB => O
  | Chr _ => 1%nat
  | Seq r1 r2 => (min_length r1 + min_length r2)%nat
  | Alt r1 r2 => Nat.min (min_length r1) (min_length r2)
  | Grp r' => min_length r'
  end.

(** [s.replace(old, empty)] for a non-empty [old]: every occurrence of
    [old], found left to right, is dropped.  [skip] counts the
    characters of the current occurrence still to pass. *)
Fixpoint remove_from (old s : string) (skip : nat) : string :=
  match s with
  | EmptyString => EmptyString
  | String a s' =>
      match skip with
      | S skip' => remove_from old s' skip'
      | O =>
          if Str.startswith old s
          then remove_from old s' (String.length old - 1)
          else String a (remove_from old s' O)
      end
  end.

Definition remove_sub (old s : string) : string := remove_from old s O.

(** [s.split()]: the maximal runs of characters that are not white
    space.  The first component is the run the text begins with. *)
Fixpoint words_from (s : string) : string * list string :=
  match s with
  | EmptyString => (EmptyString, [])
  | String c s' =>
      let '(w, ws) := words_from s' in
      if Char.is_space c
      then (EmptyString, if Str.is_empty w then ws else w :: ws)
      else (String c w, ws)
  end.

Definition words (s : string) : list string :=
  let '(w, ws) := words_from s in if Str.is_empty w then ws else w :: ws.

(** [c.isupper()] and [c.isalpha()] *)
Definition isupper (c : ascii) : bool :=
  Char.is_AZ c || Char.between 192 214 c || Char.between 216 222 c.
Definition isalpha (c : ascii) : bool :=
  Char.is_AZ c || Char.is_az c || N.eqb (Char.code c) 170
  || N.eqb (Char.code c) 181 || N.eqb (Char.code c) 186
  || Char.between 192 214 c || Char.between 216 246 c || Char.between 248 255 c.

(** Lines 436-448: the texts of the contact elements that are not
    blank, each followed by a new line. *)
Definition contact_text_of (contact_elements : list string) : string :=
  fold_left (fun contact_text t =>
               if Str.truthy (Str.strip t)
               then contact_text +:+ (t +:+ String Char.newline EmptyString)
               else contact_text)
            contact_elements EmptyString.

(** Lines 454-459: the phone of the first [tel:] link that has one. *)
Fixpoint first_tel (tel_hrefs : list string) : string :=
  match tel_hrefs with
  | [] => EmptyString
  | href :: rest =>
      let phone := Str.strip (remove_sub "tel:" href) in
      if Str.truthy phone && Nat.leb 10 (String.length phone) then phone
      else first_tel rest
  end.

(** Lines 453-465. *)
Definition detail_phone (tel_hrefs : list string) (search_text : string) : string :=
  let broker_phone := first_tel tel_hrefs in
  if negb (Str.truthy broker_phone) then
    match findall _RE_PHONE search_text with
    | phone :: _ => phone
    | [] => broker_phone
    end
  else broker_phone.

(** Lines 469-474: the address of the first [mailto:] link that has one. *)
Fixpoint first_mailto (mailto_hrefs : list string) : string :=
  match mailto_hrefs with
  | [] => EmptyString
  | href :: rest =>
      let email :=
        Str.strip (hd EmptyString (Str.split "?"%char (remove_sub "mailto:" href))) in
      if Str.truthy email && Str.contains "@" email
         && negb (Str.contains "loopnet" (Str.lower email))
      then email else first_mailto rest
  end.

(** Lines 478-481. *)
Fixpoint first_email (found : list string) : string :=
  match found with
  | [] => EmptyString
  | e :: rest =>
      if negb (Str.contains "loopnet.com" (Str.lower e))
         && negb (Str.contains "costar.com" (Str.lower e))
      then e else first_email rest
  end.

(** Lines 468-481. *)
Definition detail_email (mailto_hrefs : list string) (search_text : string) : string :=
  let broker_email := first_mailto mailto_hrefs in
  if negb (Str.truthy broker_email)
  then first_email (findall _RE_EMAIL search_text)
  else broker_email.

Definition name_stop_words : list string :=
  [ "contact"; "listed"; "team"; "view"; "request"; "schedule"; "call";
    "share"; "save"; "print"; "report"; "broker"; "question"; "interest";
    "tour"; "message"; "inquiry" ].

(** [w[0].isupper()] asked of the words with [len(w) > 1 and w[0].isalpha()]. *)
Definition name_word_ok (w : string) : bool :=
  match w with
  | String c _ =>
      if Nat.ltb 1 (String.length w) && isalpha c then isupper c else true
  | EmptyString => true
  end.

(** Lines 485-498: the first line that looks like a person's name. *)
Fixpoint first_name (lines : list string) : string :=
  match lines with
  | [] => EmptyString
  | l :: rest =>
      let line := Str.strip l in
      if negb (Str.truthy line) || Str.contains "@" line
         || matches_start _RE_STARTS_WITH_DIGIT line
         || Nat.ltb 50 (String.length line) || Nat.ltb (String.length line) 4
      then first_name rest
      else if Str.contains_any name_stop_words (Str.lower line)
      then first_name rest
      else
        let ws := words line in
        if Nat.leb 2 (length ws) && Nat.leb (length ws) 4 && forallb name_word_ok ws
        then line else first_name rest
  end.

(** Lines 484-498. *)
Definition detail_name (contact_text : string) : string :=
  if Str.truthy contact_text
  then first_name (Str.split Char.newline contact_text)
  else EmptyString.

Definition company_keywords : list string :=
  [ "marcus"; "millichap"; "cbre"; "cushman"; "jll";
    "colliers"; "newmark"; "berkadia"; "ad advisors";
    "fish commercial"; "keller williams";
    "coldwell banker"; "century 21"; "nai"; "svn" ].

(** Lines 501-508. *)
Fixpoint first_company (lines : list string) : string :=
  match lines with
  | [] => EmptyString
  | line :: rest =>
      let ll := Str.strip (Str.lower line) in
      if Str.contains_any company_keywords ll then Str.strip line
      else first_company rest
  end.

Definition detail_company (search_text : string) : string :=
  first_company (Str.split Char.newline search_text).

(** [scrape_detail_page(page, url)], the page given by what the browser
    finds on it: the texts of the elements the contact selectors match,
    the hrefs of the [tel:] and [mailto:] links, and the text of the
    body. *)
Definition scrape_detail_page_of
    (contact_elements tel_hrefs mailto_hrefs : list string) (body_text : string)
    : detail_info :=
  let contact_text := contact_text_of contact_elements in
  let search_text := if Str.truthy contact_text then contact_text else body_text in
  scrape_detail_page (detail_name contact_text)
                     (detail_phone tel_hrefs search_text)
                     (detail_email mailto_hrefs search_text)
                     (detail_company search_text)
                     body_text.

(** * Properties *)

(** ** Strings and characters *)

Lemma truthy_nonempty (s : string) : Str.truthy s = true <-> s <> EmptyString.
Proof. destruct s; cbv; split; intros; congruence. Qed.

Lemma truthy_false_empty (s : string) : Str.truthy s = false <-> s = EmptyString.
Proof. destruct s; cbv; split; intros; congruence. Qed.

Lemma or_empty (a b : string) :
  Str.or a b = EmptyString <-> a = EmptyString /\ b = EmptyString.
Proof.
  unfold Str.or, Str.truthy. destruct a; simpl; split; intros H.
  - auto.
  - tauto.
  - discriminate.
  - destruct H; discriminate.
Qed.

Lemma lower_empty (s : string) : Str.lower s = EmptyString <-> s = EmptyString.
Proof. destruct s; unfold Str.lower; simpl; split; intros; congruence. Qed.

Lemma digit_value_nonneg (c : ascii) :
  Char.is_digit c = true -> (0 <= Str.digit_value c)%Z.
Proof.
  unfold Char.is_digit, Char.between, Str.digit_value.
  intros H. apply andb_prop in H as [H _].
  apply N.leb_le in H. lia.
Qed.

Lemma int_acc_nonneg (s : string) :
  forall acc, (0 <= acc)%Z -> Str.all_chars Char.is_digit s = true ->
              (0 <= Str.int_acc acc s)%Z.
Proof.
  induction s as [|c s IH]; simpl; intros acc Hacc Hs.
  - exact Hacc.
  - apply andb_prop in Hs as [Hc Hs].
    apply IH; [|exact Hs].
    pose proof (digit_value_nonneg c Hc). lia.
Qed.

Lemma int_nonneg (s : string) :
  Str.all_chars Char.is_digit s = true -> (0 <= Str.int s)%Z.
Proof. apply int_acc_nonneg. lia. Qed.

Lemma length_app (d s : string) :
  String.length (d +:+ s) = (String.length d + String.length s)%nat.
Proof. induction d as [|c d IH]; simpl; [reflexivity|]. rewrite IH. reflexivity. Qed.

Lemma take_app_length (d s : string) :
  Str.take (String.length (d +:+ s) - String.length s) (d +:+ s) = d.
Proof.
  induction d as [|c d IH]; simpl.
  - rewrite Nat.sub_diag. destruct s; reflexivity.
  - assert (E : (S (String.length (d +:+ s)) - String.length s
                 = S (String.length (d +:+ s) - String.length s))%nat).
    { rewrite length_app. lia. }
    rewrite E. simpl. f_equal. exact IH.
Qed.

(** ** The matcher *)

Lemma run_seq {A : Type} (r1 r2 : regex) (c : cursor) (k : cursor -> option A) :
  run (Seq r1 r2) c k = run r1 c (fun c' => run r2 c' k).
Proof. reflexivity. Qed.

(** What a successful [star] did: it took a run [d] of class
    characters and the continuation succeeded after it. *)
Lemma star_inv {A : Type} (p : ascii -> bool) (s : string) :
  forall pv g (k : cursor -> option A) x,
    star p pv s g k = Some x ->
    exists d s' pv', s = d +:+ s' /\ Str.all_chars p d = true
                     /\ k (Cursor pv' s' g) = Some x.
Proof.
  induction s as [|c s IH]; simpl; intros pv g k x H.
  - exists EmptyString, EmptyString, pv. auto.
  - destruct (p c) eqn:Hp.
    + unfold orelse in H.
      destruct (star p (Some c) s g k) as [y|] eqn:Hs.
      * inversion H; subst y.
        destruct (IH _ _ _ _ Hs) as (d & s' & pv' & -> & Hd & Hk).
        exists (String c d), s', pv'. simpl. rewrite Hp, Hd. auto.
      * exists EmptyString, (String c s), pv. auto.
    + exists EmptyString, (String c s), pv. auto.
Qed.

(** A pattern without a group leaves group 1 as it found it. *)
Lemma run_group_free {A : Type} (r : regex) :
  group_free r = true ->
  forall c (k : cursor -> option A) x,
    run r c k = Some x -> exists c', k c' = Some x /\ group1 c' = group1 c.
Proof.
  induction r as [|p|r1 IH1 r2 IH2|r1 IH1 r2 IH2|p|r IH| |];
    simpl; intros Hg c k x H.
  - eauto.
  - destruct (rest c) as [|a s']; [discriminate|].
    destruct (p a); [|discriminate]. eexists; split; [exact H|reflexivity].
  - apply andb_prop in Hg as [Hg1 Hg2].
    destruct (IH1 Hg1 _ _ _ H) as (c1 & H1 & E1).
    destruct (IH2 Hg2 _ _ _ H1) as (c2 & H2 & E2).
    exists c2. split; [exact H2|congruence].
  - apply andb_prop in Hg as [Hg1 Hg2]. unfold orelse in H.
    destruct (run r1 c k) as [y|] eqn:E.
    + inversion H; subst y. eauto.
    + eauto.
  - destruct (star_inv _ _ _ _ _ _ H) as (d & s' & pv' & _ & _ & Hk).
    eexists; split; [exact Hk|reflexivity].
  - discriminate.
  - destruct (at_end c); [eauto|discriminate].
  - destruct (at_boundary c); [eauto|discriminate].
Qed.

(** [(class+)]: group 1 is a non-empty run of class characters. *)
Lemma run_group_plus {A : Type} (p : ascii -> bool) (c : cursor)
    (k : cursor -> option A) (x : A) :
  run (Grp (Plus p)) c k = Some x ->
  exists c' d, k c' = Some x /\ group1 c' = Some d
               /\ Str.all_chars p d = true /\ d <> EmptyString.
Proof.
  simpl. destruct (rest c) as [|a s] eqn:Hrest; [discriminate|].
  destruct (p a) eqn:Hp; [|discriminate].
  intros H. apply star_inv in H as (d & s' & pv' & -> & Hd & Hk).
  simpl in Hk.
  eexists _, (String a d). split; [exact Hk|]. simpl. split.
  - f_equal.
    pose proof (take_app_length (String a d) s') as E. simpl in E.
    simpl. exact E.
  - rewrite Hp, Hd. split; [reflexivity|discriminate].
Qed.

(** Every pattern of the shape [(class+) tail], with no group in the
    tail, reports as group 1 a run of class characters. *)
Lemma match_at_group_plus (p : ascii -> bool) (tail : regex) (s : string)
    (pv : option ascii) (g : option string) :
  group_free tail = true ->
  match_at (Seq (Grp (Plus p)) tail) pv s = Some g ->
  exists d, g = Some d /\ Str.all_chars p d = true /\ d <> EmptyString.
Proof.
  intros Hg E. unfold match_at in E. rewrite run_seq in E.
  apply run_group_plus in E as (c' & d & Hk & Hd & Hall & Hne).
  apply (run_group_free tail Hg) in Hk as (c'' & Hk & E2).
  inversion Hk. exists d. split; [congruence|auto].
Qed.

Lemma search_from_group_plus (p : ascii -> bool) (tail : regex) :
  group_free tail = true ->
  forall s pv g,
    search_from (Seq (Grp (Plus p)) tail) pv s = Some g ->
    exists d, g = Some d /\ Str.all_chars p d = true /\ d <> EmptyString.
Proof.
  intros Hg. induction s as [|a s IH]; intros pv g; cbn [search_from];
    destruct (match_at _ pv _) as [y|] eqn:E; intros H.
  - inversion H; subst y. eapply match_at_group_plus; eauto.
  - discriminate.
  - inversion H; subst y. eapply match_at_group_plus; eauto.
  - eapply IH; eauto.
Qed.

Lemma search_group_plus (p : ascii -> bool) (tail : regex) (s : string)
    (g : option string) :
  group_free tail = true ->
  search (Seq (Grp (Plus p)) tail) s = Some g ->
  exists d, g = Some d /\ Str.all_chars p d = true /\ d <> EmptyString.
Proof. intros Hg. apply search_from_group_plus. exact Hg. Qed.

(** ** Counts read off a block are never negative *)

Lemma count_nonneg (tail : regex) (s : string) (m : option string) :
  group_free tail = true ->
  search (Seq (Grp (Plus digit)) tail) s = Some m ->
  (0 <= Str.int (group m))%Z.
Proof.
  intros Hg H. apply search_group_plus in H as (d & -> & Hd & _); [|exact Hg].
  simpl. apply int_nonneg. exact Hd.
Qed.

Lemma parse_beds_nonneg (full_text : string) : (0 <= parse_beds full_text)%Z.
Proof.
  unfold parse_beds. destruct (search _RE_BED full_text) as [m|] eqn:E; [|lia].
  eapply count_nonneg; [|exact E]. reflexivity.
Qed.

Lemma parse_units_nonneg (full_text : string) : (0 <= parse_units full_text)%Z.
Proof.
  unfold parse_units.
  assert (Hu : (0 <= match search _RE_UNIT full_text with
                     | Some unit_match => Str.int (group unit_match)
                     | None => 0 end)%Z).
  { destruct (search _RE_UNIT full_text) as [m|] eqn:E; [|lia].
    eapply count_nonneg; [|exact E]. reflexivity. }
  destruct (search _RE_ROOM full_text) as [m|] eqn:E; [|exact Hu].
  destruct (Z.eqb _ 0); [|exact Hu].
  eapply count_nonneg; [|exact E]. reflexivity.
Qed.

(** ** Size filter *)

Lemma or_zero_id (x : Z) : or_zero x = x.
Proof. unfold or_zero. destruct (Z.eqb_spec x 0); congruence. Qed.

Lemma meets_criteria_iff (l : listing) :
  meets_criteria l = true <->
  (beds l = 0 /\ units l = 0)%Z \/ (50 <= beds l)%Z \/ (40 <= units l)%Z.
Proof.
  unfold meets_criteria, MIN_BEDS, MIN_UNITS. rewrite !or_zero_id.
  destruct (Z.eqb_spec (beds l) 0) as [Hb|Hb];
    destruct (Z.eqb_spec (units l) 0) as [Hu|Hu]; simpl;
    rewrite ?orb_true_iff, ?Z.geb_le; try tauto; lia.
Qed.

Lemma both_known_and_small_iff (l : listing) :
  both_known_and_small l = true <->
  (0 < beds l < 50 /\ 0 < units l < 40)%Z.
Proof.
  unfold both_known_and_small, MIN_BEDS, MIN_UNITS. rewrite !or_zero_id.
  rewrite !andb_true_iff, !Z.gtb_lt, !Z.ltb_lt. lia.
Qed.

Lemma In_final (l : listing) (all_listings : list listing) :
  In l (final all_listings) <->
  In l all_listings /\ meets_criteria l = true /\ both_known_and_small l = false.
Proof.
  unfold final, filtered. rewrite !filter_In, negb_true_iff. tauto.
Qed.



(** C9.  The second loop of the size filter removes nothing: the final
    set equals the set that passed [meets_criteria], and no record that
    passes [meets_criteria] has 0 < beds < MIN_BEDS together with
    0 < units < MIN_UNITS. *)
Theorem secondary_exclusion_redundant (all_listings : list listing) :
  final all_listings = filtered all_listings /\
  forall l : listing,
    meets_criteria l = true ->
    ~ ((0 < beds l)%Z /\ (beds l < MIN_BEDS)%Z /\
       (0 < units l)%Z /\ (units l < MIN_UNITS)%Z).
Proof.
  assert (H : forall l, meets_criteria l = true -> both_known_and_small l = false).
  { intros l Hm. apply meets_criteria_iff in Hm.
    destruct (both_known_and_small l) eqn:E; [|reflexivity].
    apply both_known_and_small_iff in E. lia. }
  split.
  - unfold final, filtered.
    induction all_listings as [|l ls IH]; simpl; [reflexivity|].
    destruct (meets_criteria l) eqn:Hm; simpl; [|exact IH].
    rewrite (H l Hm). simpl. f_equal. exact IH.
  - intros l Hm Hc. apply meets_criteria_iff in Hm.
    unfold MIN_BEDS, MIN_UNITS in Hc. lia.
Qed.

(** ** Parser rejection *)

(** C4.  When the line loop found no price and the bed and unit counts
    are both 0, [parse_listing_text] returns [None]; and every record it
    returns has a non-empty price, or beds > 0, or units > 0. *)
Theorem parser_rejection (text link state : string) :
  (v_price (fold_left classify_line (block_lines text) no_vars) = EmptyString ->
   parse_beds (Str.lower text) = 0%Z ->
   parse_units (Str.lower text) = 0%Z ->
   parse_listing_text text link state = None) /\
  (forall r : listing,
     parse_listing_text text link state = Some r ->
     price r <> EmptyString \/ (beds r > 0)%Z \/ (units r > 0)%Z).
Proof.
  unfold parse_listing_text. split.
  - intros Hp Hb Hu. rewrite Hp, Hb, Hu. simpl.
    destruct (block_lines text); reflexivity.
  - intros r. destruct (block_lines text) as [|l0 ls] eqn:El; [discriminate|].
    rewrite <- El. clear El.
    pose proof (parse_beds_nonneg (Str.lower text)) as Hb.
    pose proof (parse_units_nonneg (Str.lower text)) as Hu.
    destruct (Str.truthy (v_price _)) eqn:Hp; simpl.
    + intros H; inversion H; subst r; simpl.
      left. apply truthy_nonempty. exact Hp.
    + destruct (Z.eqb_spec (parse_beds (Str.lower text)) 0) as [Eb|Eb]; simpl.
      * destruct (Z.eqb_spec (parse_units (Str.lower text)) 0) as [Eu|Eu];
          [discriminate|].
        intros H; inversion H; subst r; simpl. right; right. lia.
      * intros H; inversion H; subst r; simpl. right; left. lia.
Qed.

Lemma parser_rejection_witness :
  parse_listing_text "Contact the listing team" "" "" = None
  /\ (price bed_only_listing <> EmptyString
      \/ (beds bed_only_listing > 0)%Z \/ (units bed_only_listing > 0)%Z).
Proof.
  split.
  - apply (proj1 (parser_rejection "Contact the listing team" "" "")); reflexivity.
  - apply (proj2 (parser_rejection "60 beds" "" "") bed_only_listing). reflexivity.
Defined.

(** ** Enrichment *)

Lemma key_eq_dec (a b : key) : {a = b} + {a <> b}.
Proof. decide equality. Qed.

Lemma get_set_same (k : key) (v : value k) (l : listing) : get k (set k v l) = v.
Proof. destruct k; reflexivity. Qed.

Lemma get_set_other (k k' : key) (v : value k') (l : listing) :
  k <> k' -> get k (set k' v l) = get k l.
Proof. intros H. destruct k, k'; try reflexivity; congruence. Qed.

(** One turn of the loop leaves every filled key alone. *)
Lemma merge_key_keeps (detail : detail_info) (lst : listing) (k k' : key) :
  truthy k (get k lst) = true ->
  get k (merge_key detail lst k') = get k lst.
Proof.
  intros Hk. unfold merge_key.
  destruct (detail_get k' detail) as [v|]; [|reflexivity].
  destruct (truthy k' v); simpl; [|reflexivity].
  destruct (truthy k' (get k' lst)) eqn:Hk'; simpl; [reflexivity|].
  apply get_set_other. intros ->. congruence.
Qed.

Lemma fold_merge_keeps (detail : detail_info) (k : key) (ks : list key) :
  forall lst,
    truthy k (get k lst) = true ->
    get k (fold_left (merge_key detail) ks lst) = get k lst.
Proof.
  induction ks as [|k' ks IH]; simpl; intros lst Hk; [reflexivity|].
  rewrite IH; rewrite merge_key_keeps; auto.
Qed.

(** A turn of the loop changes at most the key it is at, and only when
    the listing holds nothing there. *)
Lemma merge_key_changes (detail : detail_info) (lst : listing) (k k' : key) :
  get k (merge_key detail lst k') <> get k lst ->
  k = k' /\ truthy k (get k lst) = false.
Proof.
  intros Hne. destruct (truthy k (get k lst)) eqn:Hk.
  - exfalso. apply Hne. apply merge_key_keeps. exact Hk.
  - split; [|reflexivity].
    destruct (key_eq_dec k k') as [E|E]; [exact E|].
    exfalso. apply Hne. unfold merge_key.
    destruct (detail_get k' detail) as [v|]; [|reflexivity].
    destruct (truthy k' v && negb (truthy k' (get k' lst))); [|reflexivity].
    apply get_set_other. exact E.
Qed.

(** C2.  Enrichment never overwrites: a key under which the listing
    holds a non-empty string or a nonzero count holds the same value
    after the detail page was merged in. *)
Theorem enrich_keeps_filled (lst : listing) (detail : detail_info) (k : key) :
  truthy k (get k lst) = true ->
  get k (enrich lst detail) = get k lst.
Proof. apply fold_merge_keeps. Qed.

Lemma enrich_keeps_filled_witness :
  broker_phone (enrich listing_with_phone detail_with_phone) = "999-9999"
  /\ beds (enrich listing_with_phone detail_with_phone) = 60%Z
  /\ units (enrich listing_with_phone detail_with_phone) = 70%Z
  /\ broker_name (enrich listing_with_phone detail_with_phone) = "Ann Lee".
Proof.
  split; [|split; [|split]].
  - exact (enrich_keeps_filled listing_with_phone detail_with_phone
             k_broker_phone eq_refl).
  - exact (enrich_keeps_filled listing_with_phone detail_with_phone
             k_beds eq_refl).
  - reflexivity.
  - reflexivity.
Defined.

(** The same holds for the loop of [main] as a whole, which skips some
    listings and enriches the others. *)
Corollary enrich_one_keeps_filled (detail_of : string -> detail_info)
    (lst : listing) (k : key) :
  truthy k (get k lst) = true ->
  get k (enrich_one detail_of lst) = get k lst.
Proof.
  intros Hk. unfold enrich_one.
  destruct (negb _); [reflexivity|].
  destruct (_ && _); [reflexivity|].
  apply fold_merge_keeps. exact Hk.
Qed.

(** ** Dedup: the shared loop *)

Lemma not_elem_of_add (k k' : string) (seen : gset string) :
  k ∉ {[k']} ∪ seen <-> k <> k' /\ (k ∉ seen).
Proof. rewrite elem_of_union, elem_of_singleton. tauto. Qed.

Section FirstSeenFacts.
Variable key_of : listing -> string.

Lemma first_seen_In (listings : list listing) :
  forall (seen : gset string) (r : listing),
    In r (first_seen key_of seen listings) <->
    key_of r <> EmptyString /\ (key_of r ∉ seen) /\
    exists l1 l2, listings = l1 ++ r :: l2
                  /\ forall r', In r' l1 -> key_of r' <> key_of r.
Proof.
  induction listings as [|l rest IH]; intros seen r; simpl.
  - split; [tauto|]. intros (_ & _ & l1 & l2 & E & _).
    destruct l1; discriminate.
  - destruct (Str.truthy (key_of l)) eqn:Ht; simpl.
    + case_bool_decide as Hs; simpl.
      * (* the key was seen before: [l] is dropped *)
        rewrite IH. split.
        -- intros (Hne & Hns & l1 & l2 & -> & Hl1).
           split; [exact Hne|]. split; [exact Hns|].
           exists (l :: l1), l2. split; [reflexivity|].
           intros r' [<-|Hr']; [|auto]. intros E. apply Hns. rewrite <- E. exact Hs.
        -- intros (Hne & Hns & l1 & l2 & E & Hl1).
           split; [exact Hne|]. split; [exact Hns|].
           destruct l1 as [|x l1]; simpl in E; inversion E; subst.
           ++ contradiction.
           ++ exists l1, l2. split; [reflexivity|]. intros r' Hr'. apply Hl1. now right.
      * (* a new key: [l] is kept and its key remembered *)
        simpl. rewrite IH. split.
        -- intros [<-|(Hne & Hns & l1 & l2 & -> & Hl1)].
           ++ split; [apply truthy_nonempty; exact Ht|]. split; [exact Hs|].
              exists [], rest. split; [reflexivity|]. intros r' [].
           ++ apply not_elem_of_add in Hns as [Hkl Hns].
              split; [exact Hne|]. split; [exact Hns|].
              exists (l :: l1), l2. split; [reflexivity|].
              intros r' [<-|Hr']; [congruence|auto].
        -- intros (Hne & Hns & l1 & l2 & E & Hl1).
           destruct l1 as [|x l1]; simpl in E; inversion E; subst.
           ++ now left.
           ++ right. split; [exact Hne|]. split.
              ** apply not_elem_of_add. split; [|exact Hns].
                 intros E'. apply (Hl1 x); [now left|congruence].
              ** exists l1, l2. split; [reflexivity|]. intros r' Hr'. apply Hl1. now right.
    + (* an empty key: [l] is dropped *)
      apply truthy_false_empty in Ht. rewrite IH. split.
      * intros (Hne & Hns & l1 & l2 & -> & Hl1).
        split; [exact Hne|]. split; [exact Hns|].
        exists (l :: l1), l2. split; [reflexivity|].
        intros r' [<-|Hr']; [congruence|auto].
      * intros (Hne & Hns & l1 & l2 & E & Hl1).
        split; [exact Hne|]. split; [exact Hns|].
        destruct l1 as [|x l1]; simpl in E; inversion E; subst.
        -- congruence.
        -- exists l1, l2. split; [reflexivity|]. intros r' Hr'. apply Hl1. now right.
Qed.

Lemma first_seen_sublist (listings : list listing) :
  forall seen : gset string, sublist (first_seen key_of seen listings) listings.
Proof.
  induction listings as [|l rest IH]; intros seen; simpl.
  - constructor.
  - destruct (_ && _).
    + apply sublist_skip, IH.
    + apply sublist_cons, IH.
Qed.

Lemma first_seen_NoDup (listings : list listing) :
  forall seen : gset string,
    NoDup (List.map key_of (first_seen key_of seen listings)).
Proof.
  induction listings as [|l rest IH]; intros seen; simpl.
  - constructor.
  - destruct (_ && _); [|apply IH].
    simpl. constructor; [|apply IH].
    rewrite list_elem_of_In, in_map_iff. intros (r & E & Hr).
    apply first_seen_In in Hr as (_ & Hns & _).
    apply not_elem_of_add in Hns as [Hkl _]. congruence.
Qed.

End FirstSeenFacts.

(** ** Cross-page dedup *)

Lemma dedupe_key_natural (l : listing) : dedupe_key l = natural_key l.
Proof. reflexivity. Qed.



(** C10.  A record whose URL is empty, whose trimmed address is empty
    and whose price is empty is not in the output of [dedupe], whatever
    else the input holds. *)
Theorem dedupe_drops_empty_key (listings : list listing) (r : listing) :
  listing_url r = EmptyString ->
  Str.strip (address r) = EmptyString ->
  price r = EmptyString ->
  ~ In r (dedupe listings).
Proof.
  intros Hu Ha Hp Hin. unfold dedupe in Hin.
  apply first_seen_In in Hin as (Hne & _). apply Hne.
  unfold dedupe_key. rewrite Hu, Ha, Hp. reflexivity.
Qed.

Lemma dedupe_drops_empty_key_witness :
  parse_listing_text "60 beds" "" "" = Some bed_only_listing
  /\ ~ In bed_only_listing (dedupe [oak_listing_1; bed_only_listing; price_only_listing]).
Proof.
  split; [reflexivity|].
  exact (dedupe_drops_empty_key [oak_listing_1; bed_only_listing; price_only_listing]
           bed_only_listing eq_refl eq_refl eq_refl).
Defined.

(** ** Within-page dedup *)

(** C7, as the claim states it, fails: the page pass keys on the URL,
    else on the address exactly as parsed.  Two blocks whose addresses
    differ in case only have one natural key, and both records are
    returned; a block that is only a price has a non-empty natural key,
    and its record is dropped. *)
Lemma page_unique_is_not_by_natural_key :
  page_listings [(oak_text_1, EmptyString); (oak_text_2, EmptyString)] "OH"
    = [oak_listing_1; oak_listing_2]
  /\ natural_key oak_listing_1 = natural_key oak_listing_2
  /\ scrape_search_page_unique [oak_listing_1; oak_listing_2]
     = [oak_listing_1; oak_listing_2]
  /\ parse_listing_text "$1,000,000" "" "OH" = Some price_only_listing
  /\ natural_key price_only_listing = "$1,000,000"
  /\ scrape_search_page_unique [price_only_listing] = [].
Proof. vm_compute. repeat split. Qed.

(** C7, amended.  The page pass returns the records in the order they
    were parsed; no two of them share a page key; and a record is
    returned exactly when its page key is non-empty and no earlier
    record of the page has the same page key.  The page key is the
    source URL if non-empty, else the address as parsed (not
    lower-cased, and with no price to fall back on). *)
Theorem page_unique_first_per_page_key (listings : list listing) :
  (forall l, page_key l =
             if negb (Str.is_empty (listing_url l)) then listing_url l
             else address l) /\
  sublist (scrape_search_page_unique listings) listings /\
  NoDup (List.map page_key (scrape_search_page_unique listings)) /\
  (forall r : listing,
     In r (scrape_search_page_unique listings) <->
     page_key r <> EmptyString /\
     exists l1 l2, listings = l1 ++ r :: l2
                   /\ forall r', In r' l1 -> page_key r' <> page_key r).
Proof.
  split; [reflexivity|]. split; [apply first_seen_sublist|].
  split; [apply first_seen_NoDup|].
  intros r. unfold scrape_search_page_unique. rewrite first_seen_In.
  split; [tauto|]. intros [H1 H2]. split; [exact H1|]. split; [|exact H2].
  apply not_elem_of_empty.
Qed.

(** ** The end-to-end scenario *)

(** C5, as the claim states it, fails in one field: the parser stores
    the brokerage line under [broker_name] and always returns an empty
    [broker_company]. *)
Lemma scenario_broker_company_empty :
  option_map broker_company (parse_listing_text scenario_text "" "") = Some EmptyString
  /\ option_map broker_name (parse_listing_text scenario_text "" "")
     = Some "Marcus & Millichap".
Proof. vm_compute. split; reflexivity. Qed.

(** C5, amended.  For any link and region the scenario block parses to
    the record with property type [Sunrise Senior Living], price
    [$12,500,000], address [456 Main St, Springfield, IL 62704], 120
    beds, the line [Marcus & Millichap] under [broker_name], and every
    other field (among them [broker_company]) empty or 0. *)
Theorem scenario_parses (link state : string) :
  parse_listing_text scenario_text link state =
  Some {| address := "456 Main St, Springfield, IL 62704";
          price := "$12,500,000";
          beds := 120; units := 0;
          sqft := EmptyString;
          property_type := "Sunrise Senior Living";
          cap_rate := EmptyString;
          broker_name := "Marcus & Millichap";
          broker_phone := EmptyString; broker_email := EmptyString;
          broker_company := EmptyString;
          listing_url := link; state := state |}.
Proof. vm_compute. reflexivity. Qed.

(** ** The two parsing paths *)

Lemma char_lower_idem (c : ascii) : Char.lower (Char.lower c) = Char.lower c.
Proof. destruct c as [[] [] [] [] [] [] [] []]; reflexivity. Qed.


Lemma app_cons (c : ascii) (d s : string) : String c d +:+ s = String c (d +:+ s).
Proof. reflexivity. Qed.











Lemma units_paths_agree (t : string) : parse_units t = detail_units t.
Proof.
  unfold parse_units, detail_units.
  destruct (search _RE_UNIT t) as [u|]; destruct (search _RE_ROOM t) as [m|];
    simpl; try reflexivity; destruct (Z.eqb _ 0); reflexivity.
Qed.





(** ** Region resolution *)

(** Every alias is in the table under its own code: no two aliases of
    different codes normalise to one key. *)
Lemma alias_items_resolve :
  forallb (fun '(k, code) =>
             bool_decide (_STATE_ALIASES !! k = Some code) && Str.truthy code)
          alias_items = true.
Proof. vm_compute. reflexivity. Qed.

Lemma valid_alias_item (raw code : string) :
  valid_alias raw code -> In (_normalize_state_token raw, code) alias_items.
Proof.
  unfold alias_items. rewrite in_app_iff, in_flat_map, in_map_iff.
  intros [(name & Hin & H)|(spelling & Hin & H)].
  - left. exists (code, name). split; [exact Hin|].
    destruct H as [-> | ->]; simpl; auto.
  - right. exists (spelling, code). split; [|exact Hin]. rewrite H. reflexivity.
Qed.

Lemma valid_alias_resolves (raw code : string) :
  valid_alias raw code -> resolve raw = Some code /\ code <> EmptyString.
Proof.
  intros H. apply valid_alias_item in H.
  pose proof alias_items_resolve as Hall. rewrite forallb_forall in Hall.
  apply Hall in H. apply andb_prop in H as [H1 H2].
  apply bool_decide_eq_true in H1. apply truthy_nonempty in H2. auto.
Qed.

Lemma lookup_fold_codes (items : list (string * string)) :
  forall (m : gmap string string) (k v : string),
    fold_left
      (fun (m : gmap string string) '(_code, _name) =>
         <[_normalize_state_token _name := _code]>
           (<[_normalize_state_token _code := _code]> m)) items m !! k = Some v ->
    m !! k = Some v \/
    exists name, In (v, name) items
      /\ (k = _normalize_state_token v \/ k = _normalize_state_token name).
Proof.
  induction items as [|[c n] items IH]; intros m k v H; simpl in H; [auto|].
  apply IH in H as [H|(name & Hin & Hk)].
  - apply lookup_insert_Some in H as [[<- <-]|[_ H]].
    + right. exists n. split; [now left|auto].
    + apply lookup_insert_Some in H as [[<- <-]|[_ H]]; [|auto].
      right. exists n. split; [now left|auto].
  - right. exists name. split; [now right|exact Hk].
Qed.

Lemma lookup_fold_spellings (items : list (string * string)) :
  forall (m : gmap string string) (k v : string),
    fold_left
      (fun (m : gmap string string) '(spelling, _code) =>
         <[_normalize_state_token spelling := _code]> m) items m !! k = Some v ->
    m !! k = Some v \/
    exists spelling, In (spelling, v) items /\ k = _normalize_state_token spelling.
Proof.
  induction items as [|[s c] items IH]; intros m k v H; simpl in H; [auto|].
  apply IH in H as [H|(spelling & Hin & Hk)].
  - apply lookup_insert_Some in H as [[<- <-]|[_ H]]; [|auto].
    right. exists s. split; [now left|reflexivity].
  - right. exists spelling. split; [now right|exact Hk].
Qed.

(** The table holds nothing but aliases. *)
Lemma resolves_valid_alias (raw code : string) :
  resolve raw = Some code -> valid_alias raw code.
Proof.
  unfold resolve, _STATE_ALIASES. intros H.
  apply lookup_fold_spellings in H as [H|(spelling & Hin & Hk)].
  - apply lookup_fold_codes in H as [H|(name & Hin & Hk)].
    + rewrite lookup_empty in H. discriminate.
    + left. exists name. auto.
  - right. exists spelling. auto.
Qed.

Lemma resolve_truthy (raw code : string) :
  resolve raw = Some code -> Str.truthy code = true.
Proof.
  intros H. apply resolves_valid_alias, valid_alias_resolves in H as [_ H].
  apply truthy_nonempty. exact H.
Qed.

Lemma expand_step_eq (codes unknown : list string) (raw : string) :
  expand_step (codes, unknown) raw =
  (add_code codes raw, if unresolved raw then unknown ++ [raw] else unknown).
Proof.
  unfold expand_step, add_code, unresolved. fold (resolve raw).
  destruct (resolve raw) as [code|] eqn:E; [|reflexivity].
  rewrite (resolve_truthy _ _ E).
  destruct (bool_decide (code ∈ codes)); reflexivity.
Qed.

Lemma expand_fold (states_input : list string) :
  forall codes unknown,
    fold_left expand_step states_input (codes, unknown) =
    (fold_left add_code states_input codes,
     unknown ++ List.filter unresolved states_input).
Proof.
  induction states_input as [|raw rest IH]; intros codes unknown;
    cbn [fold_left List.filter].
  - rewrite app_nil_r. reflexivity.
  - rewrite expand_step_eq, IH.
    destruct (unresolved raw); [|reflexivity].
    rewrite <- app_assoc. reflexivity.
Qed.

Lemma add_code_step (codes : list string) (raw code : string) :
  In code (add_code codes raw) <-> In code codes \/ resolve raw = Some code.
Proof.
  unfold add_code. destruct (resolve raw) as [c|] eqn:E.
  - case_bool_decide as Hc.
    + apply list_elem_of_In in Hc. split; [auto|].
      intros [H|H]; [exact H|congruence].
    + rewrite in_app_iff. cbn [In]. split.
      * intros [H|[<-|[]]]; auto.
      * intros [H|H]; [auto|]. right. left. congruence.
  - split; [auto|]. intros [H|H]; [exact H|discriminate].
Qed.

Lemma add_code_In (states_input : list string) :
  forall codes code,
    In code (fold_left add_code states_input codes) <->
    In code codes \/ exists raw, In raw states_input /\ resolve raw = Some code.
Proof.
  induction states_input as [|raw rest IH]; intros codes code;
    cbn [fold_left In].
  - split; [auto|]. intros [H|(raw & [] & _)]. exact H.
  - rewrite IH, add_code_step. split.
    + intros [[H|H]|(r & Hr & Hres)]; [auto| |].
      * right. exists raw. auto.
      * right. exists r. auto.
    + intros [H|(r & [<-|Hr] & Hres)]; [auto|auto|].
      right. exists r. auto.
Qed.

(** C8.  Every alias of a code (the code itself, its state name, or a
    declared misspelling, compared on lower-cased letters only) resolves
    to that code, and a token resolves to nothing exactly when it is no
    alias.  When some token of the input is unresolved, the call raises
    the error whose message lists the unresolved tokens, in input order,
    and returns no list; otherwise it returns the codes of the tokens. *)
Theorem expand_states_resolution (states_input : list string) :
  (forall raw code, valid_alias raw code -> resolve raw = Some code) /\
  (forall raw, resolve raw = None <-> ~ exists code, valid_alias raw code) /\
  match List.filter unresolved states_input with
  | [] =>
      exists codes,
        _expand_states states_input = Return codes
        /\ forall code, In code codes <->
                        exists raw, In raw states_input /\ valid_alias raw code
  | unknown =>
      _expand_states states_input =
      ValueError ("Unknown state(s): " +:+ Str.join ", " unknown
                  +:+ ". Use a 2-letter code (e.g., 'PA') or full state name (e.g., 'Pennsylvania').")
  end.
Proof.
  split; [intros raw code H; apply valid_alias_resolves; exact H|].
  split.
  - intros raw. split.
    + intros Hn (code & Hv). apply valid_alias_resolves in Hv as [Hv _]. congruence.
    + intros Hn. destruct (resolve raw) as [code|] eqn:E; [|reflexivity].
      exfalso. apply Hn. exists code. apply resolves_valid_alias. exact E.
  - unfold _expand_states. rewrite expand_fold. rewrite app_nil_l.
    destruct (List.filter unresolved states_input) as [|u us]; [|reflexivity].
    eexists. split; [reflexivity|].
    intros code. rewrite add_code_In. split.
    + intros [[]|(raw & Hr & Hres)]. exists raw. split; [exact Hr|].
      apply resolves_valid_alias. exact Hres.
    + intros (raw & Hr & Hv). right. exists raw. split; [exact Hr|].
      apply valid_alias_resolves. exact Hv.
Qed.

Lemma expand_states_resolution_witness :
  resolve "Massachusets" = Some "MA"
  /\ resolve "new-hampshire" = Some "NH"
  /\ _expand_states ["PA"; "Narnia"; "n.c."; "Mordor"] =
     ValueError "Unknown state(s): Narnia, Mordor. Use a 2-letter code (e.g., 'PA') or full state name (e.g., 'Pennsylvania')."
  /\ exists codes, _expand_states STATES_INPUT = Return codes.
Proof.
  split; [|split; [|split]].
  - apply (proj1 (expand_states_resolution [])).
    right. exists "Massachusets". split; [simpl; auto|reflexivity].
  - apply (proj1 (expand_states_resolution [])).
    left. exists "New Hampshire". split; [simpl; tauto|right; reflexivity].
  - exact (proj2 (proj2 (expand_states_resolution ["PA"; "Narnia"; "n.c."; "Mordor"]))).
  - destruct (proj2 (proj2 (expand_states_resolution STATES_INPUT))) as (codes & H & _).
    exists codes. exact H.
Defined.

(** The regions the program is configured with all resolve. *)
Example STATES :
  _expand_states STATES_INPUT =
  Return ["AL"; "AR"; "AZ"; "CA"; "CO"; "ID"; "IL"; "MD"; "MA"; "MI"; "MN";
          "MT"; "NE"; "NV"; "NH"; "NC"; "OH"; "OK"; "OR"; "PA"; "RI"; "SC";
          "TN"; "TX"; "UT"; "VT"; "WI"; "WY"].
Proof. vm_compute. reflexivity. Qed.

(** * Properties of the rest of the program *)

(** ** Region tokens and search URLs *)

Lemma is_az_lower (c : ascii) : Char.is_az c = true -> Char.lower c = c.
Proof. destruct c as [[] [] [] [] [] [] [] []]; intros H; try reflexivity; discriminate H. Qed.

Lemma keep_az_app (a b : string) : keep_az (a +:+ b) = keep_az a +:+ keep_az b.
Proof.
  induction a as [|c a IH]; [reflexivity|].
  rewrite app_cons. simpl. destruct (Char.is_az c); [|exact IH].
  rewrite app_cons. f_equal. exact IH.
Qed.

Lemma keep_az_all (s : string) : Str.all_chars Char.is_az (keep_az s) = true.
Proof.
  induction s as [|c s IH]; [reflexivity|]. simpl.
  destruct (Char.is_az c) eqn:E; [|exact IH]. simpl. rewrite E. exact IH.
Qed.

Lemma keep_az_id (s : string) :
  Str.all_chars Char.is_az s = true -> keep_az s = s.
Proof.
  induction s as [|c s IH]; [reflexivity|]. simpl. intros H.
  apply andb_prop in H as [Hc Hs]. rewrite Hc. f_equal. auto.
Qed.

Lemma lower_id_az (s : string) :
  Str.all_chars Char.is_az s = true -> Str.lower s = s.
Proof.
  induction s as [|c s IH]; [reflexivity|]. simpl. intros H.
  apply andb_prop in H as [Hc Hs]. unfold Str.lower in *. simpl.
  rewrite (is_az_lower c Hc). f_equal. auto.
Qed.

Lemma lower_idem (s : string) : Str.lower (Str.lower s) = Str.lower s.
Proof.
  induction s as [|c s IH]; [reflexivity|]. unfold Str.lower in *. simpl.
  rewrite char_lower_idem. f_equal. exact IH.
Qed.

Lemma lower_app (a b : string) : Str.lower (a +:+ b) = Str.lower a +:+ Str.lower b.
Proof.
  induction a as [|c a IH]; [reflexivity|].
  rewrite app_cons. unfold Str.lower in *. simpl. rewrite app_cons.
  f_equal. exact IH.
Qed.

(** X1.  Normalising a region token keeps lower-case letters a-z only;
    it is idempotent and blind to case; and a character that is no
    letter a-z once lower-cased can be put anywhere in a token without
    changing what the token resolves to. *)
Theorem normalize_state_token_insensitive (s : string) :
  Str.all_chars Char.is_az (_normalize_state_token s) = true /\
  _normalize_state_token (_normalize_state_token s) = _normalize_state_token s /\
  _normalize_state_token (Str.lower s) = _normalize_state_token s /\
  (forall (a b : string) (c : ascii),
     s = a +:+ String c b -> Char.is_az (Char.lower c) = false ->
     _normalize_state_token s = _normalize_state_token (a +:+ b)
     /\ resolve s = resolve (a +:+ b)).
Proof.
  unfold _normalize_state_token. split; [apply keep_az_all|].
  split.
  { rewrite (lower_id_az _ (keep_az_all _)). apply keep_az_id, keep_az_all. }
  split; [rewrite lower_idem; reflexivity|].
  intros a b c -> Hc.
  assert (E : keep_az (Str.lower (a +:+ String c b)) = keep_az (Str.lower (a +:+ b))).
  { rewrite !lower_app, !keep_az_app. f_equal.
    unfold Str.lower. simpl. rewrite Hc. reflexivity. }
  split; [exact E|]. unfold resolve, _normalize_state_token. rewrite E. reflexivity.
Qed.

Lemma normalize_state_token_insensitive_witness :
  resolve "N. C." = resolve "N.C."
  /\ resolve "N. C." = Some "NC".
Proof.
  split.
  - exact (proj2 (proj2 (proj2 (proj2 (normalize_state_token_insensitive "N. C.")))
             "N." "C." " "%char eq_refl eq_refl)).
  - reflexivity.
Defined.

Lemma add_code_NoDup (states_input : list string) :
  forall codes, NoDup codes -> NoDup (fold_left add_code states_input codes).
Proof.
  induction states_input as [|raw rest IH]; intros codes H; cbn [fold_left];
    [exact H|].
  apply IH. unfold add_code. destruct (resolve raw) as [code|]; [|exact H].
  case_bool_decide as Hc; [exact H|].
  apply NoDup_app. split; [exact H|]. split.
  - intros x Hx Hx'. apply list_elem_of_singleton in Hx'. congruence.
  - apply NoDup_singleton.
Qed.

Lemma add_code_length (states_input : list string) :
  forall codes,
    (length (fold_left add_code states_input codes)
     <= length codes + length states_input)%nat.
Proof.
  induction states_input as [|raw rest IH]; intros codes; cbn [fold_left length];
    [lia|].
  etransitivity; [apply IH|]. unfold add_code.
  destruct (resolve raw) as [code|]; [|lia].
  destruct (bool_decide _); [lia|]. rewrite List.length_app. simpl. lia.
Qed.

Lemma expand_states_returns (states_input codes : list string) :
  _expand_states states_input = Return codes ->
  codes = fold_left add_code states_input [].
Proof.
  unfold _expand_states. rewrite expand_fold, app_nil_l.
  destruct (List.filter unresolved states_input); [|discriminate].
  intros H. inversion H. reflexivity.
Qed.

(** Every code of the alias table is a code of [_US_STATE_CODES], made
    of two letters A-Z. *)
Lemma alias_items_codes :
  forallb (fun '(_, code) =>
             is_state_code code
             && existsb (fun '(c, _) => bool_decide (c = code)) _US_STATE_CODES)
          alias_items = true.
Proof. vm_compute. reflexivity. Qed.

Lemma resolve_state_code (raw code : string) :
  resolve raw = Some code ->
  is_state_code code = true /\ exists name, In (code, name) _US_STATE_CODES.
Proof.
  intros H. apply resolves_valid_alias, valid_alias_item in H.
  pose proof alias_items_codes as Hall. rewrite forallb_forall in Hall.
  apply Hall in H. apply andb_prop in H as [H1 H2]. split; [exact H1|].
  apply existsb_exists in H2 as ([c n] & Hin & Hc).
  apply bool_decide_eq_true in Hc. subst c. exists n. exact Hin.
Qed.

Lemma returned_codes (states_input codes : list string) :
  _expand_states states_input = Return codes ->
  NoDup codes /\
  (forall code, In code codes ->
     is_state_code code = true /\ exists name, In (code, name) _US_STATE_CODES) /\
  (length codes <= length states_input)%nat.
Proof.
  intros H. apply expand_states_returns in H. subst codes.
  split; [apply add_code_NoDup; constructor|]. split.
  - intros code Hc. apply add_code_In in Hc as [[]|(raw & _ & Hres)].
    eapply resolve_state_code; eassumption.
  - apply (add_code_length states_input []).
Qed.

(** X2.  When [_expand_states] returns, the codes are pairwise
    distinct, each is a two-letter code of [_US_STATE_CODES], and there
    are at most as many codes as input tokens. *)
Theorem expand_states_codes (states_input codes : list string) :
  _expand_states states_input = Return codes ->
  NoDup codes /\
  (forall code, In code codes ->
     is_state_code code = true /\ exists name, In (code, name) _US_STATE_CODES) /\
  (length codes <= length states_input)%nat.
Proof. apply returned_codes. Qed.

Lemma expand_states_codes_witness :
  NoDup ["PA"; "NC"; "MA"]
  /\ (length ["PA"; "NC"; "MA"] <= length ["pa"; "N.C."; "Pennsylvania"; "Massachusets"; "PA"])%nat.
Proof.
  pose proof (expand_states_codes
                ["pa"; "N.C."; "Pennsylvania"; "Massachusets"; "PA"]
                ["PA"; "NC"; "MA"] eq_refl) as (H1 & _ & H3).
  split; [exact H1|exact H3].
Defined.

Lemma is_AZ_lower_az (c : ascii) :
  Char.is_AZ c = true ->
  Char.is_az (Char.lower c) = true
  /\ ascii_of_N (Char.code (Char.lower c) - 32) = c.
Proof.
  destruct c as [[] [] [] [] [] [] [] []]; intros H;
    try discriminate H; split; reflexivity.
Qed.

Lemma search_url_state_code (code : string) :
  is_state_code code = true ->
  exists a b, Char.is_az a = true /\ Char.is_az b = true
    /\ Str.lower code = String a (String b EmptyString).
Proof.
  destruct code as [|a [|b [|? ?]]]; try discriminate. simpl. intros H.
  apply andb_prop in H as [Ha Hb].
  exists (Char.lower a), (Char.lower b).
  split; [apply is_AZ_lower_az; exact Ha|].
  split; [apply is_AZ_lower_az; exact Hb|reflexivity].
Qed.

Lemma search_url_inj (c1 c2 : string) :
  is_state_code c1 = true -> is_state_code c2 = true ->
  search_url c1 = search_url c2 -> c1 = c2.
Proof.
  destruct c1 as [|a1 [|b1 [|? ?]]]; try discriminate.
  destruct c2 as [|a2 [|b2 [|? ?]]]; try discriminate.
  simpl. intros H1 H2 E.
  apply andb_prop in H1 as [Ha1 Hb1]. apply andb_prop in H2 as [Ha2 Hb2].
  unfold search_url in E. apply String.app_inj in E.
  unfold Str.lower in E. simpl in E. rewrite !app_cons in E.
  inversion E as [[Ea Eb]].
  apply is_AZ_lower_az in Ha1 as [_ <-], Ha2 as [_ <-],
        Hb1 as [_ <-], Hb2 as [_ <-].
  rewrite Ea, Eb. reflexivity.
Qed.

(** X3.  When [_expand_states] returns [STATES], [SEARCH_URLS] has one
    URL per state, no URL twice, and each URL is the fixed prefix, two
    lower-case letters a-z, and the fixed suffix. *)
Theorem search_urls_shape (states_input STATES : list string) :
  _expand_states states_input = Return STATES ->
  length (SEARCH_URLS STATES) = length STATES /\
  NoDup (SEARCH_URLS STATES) /\
  (forall url, In url (SEARCH_URLS STATES) ->
     exists a b, Char.is_az a = true /\ Char.is_az b = true /\
       url = "https://www.loopnet.com/search/assisted-living-facilities/"
             +:+ String a (String b EmptyString) +:+ "/for-sale/").
Proof.
  intros H. apply returned_codes in H as (Hnd & Hcodes & _).
  unfold SEARCH_URLS. split; [apply length_map|]. split.
  - clear -Hnd Hcodes. induction STATES as [|c cs IH]; simpl; [constructor|].
    apply NoDup_cons in Hnd as [Hc Hnd]. apply NoDup_cons. split.
    + rewrite list_elem_of_In, in_map_iff. intros (c' & E & Hin).
      apply search_url_inj in E.
      * subst c'. apply Hc, list_elem_of_In. exact Hin.
      * apply Hcodes. now right.
      * apply Hcodes. now left.
    + apply IH; [exact Hnd|]. intros code Hin. apply Hcodes. now right.
  - intros url Hin. apply in_map_iff in Hin as (code & <- & Hin).
    destruct (Hcodes code Hin) as [Hsc _].
    destruct (search_url_state_code code Hsc) as (a & b & Ha & Hb & E).
    exists a, b. split; [exact Ha|]. split; [exact Hb|].
    unfold search_url. rewrite E. reflexivity.
Qed.

Lemma search_urls_shape_witness :
  SEARCH_URLS ["PA"; "NC"] =
  [ "https://www.loopnet.com/search/assisted-living-facilities/pa/for-sale/";
    "https://www.loopnet.com/search/assisted-living-facilities/nc/for-sale/" ]
  /\ NoDup (SEARCH_URLS ["PA"; "NC"]).
Proof.
  split; [reflexivity|].
  exact (proj1 (proj2 (search_urls_shape ["pa"; "N.C."; "PA"] ["PA"; "NC"] eq_refl))).
Defined.

(** ** The Field Parser: what a returned record looks like *)

Lemma lstrip_spaces (s : string) :
  Str.all_chars Char.is_space s = true -> Str.lstrip s = EmptyString.
Proof.
  induction s as [|c s IH]; [reflexivity|]. simpl. intros H.
  apply andb_prop in H as [Hc Hs]. rewrite Hc. auto.
Qed.

Lemma strip_spaces (s : string) :
  Str.all_chars Char.is_space s = true -> Str.strip s = EmptyString.
Proof. intros H. unfold Str.strip. rewrite (lstrip_spaces s H). reflexivity. Qed.

Lemma split_all_chars (p : ascii -> bool) (sep : ascii) (s : string) :
  Str.all_chars p s = true ->
  Forall (fun piece => Str.all_chars p piece = true) (Str.split sep s).
Proof.
  induction s as [|c s IH]; simpl; intros H.
  - constructor; [reflexivity|constructor].
  - apply andb_prop in H as [Hc Hs]. specialize (IH Hs).
    destruct (Char.eqb c sep).
    + constructor; [reflexivity|exact IH].
    + destruct (Str.split sep s) as [|h t].
      * constructor; [simpl; rewrite Hc; reflexivity|constructor].
      * inversion IH; subst. constructor; [simpl; rewrite Hc; assumption|assumption].
Qed.

Lemma replace_blank (text : string) :
  is_blank text = true ->
  Str.all_chars Char.is_space (Str.replace Char.middle_dot Char.newline text) = true.
Proof.
  unfold is_blank, Str.replace. induction text as [|c s IH]; [reflexivity|].
  simpl. intros H. apply andb_prop in H as [Hc Hs]. rewrite (IH Hs), andb_true_r.
  destruct (Char.eqb c Char.middle_dot); [reflexivity|].
  rewrite orb_false_r in Hc. exact Hc.
Qed.

Lemma block_lines_blank (text : string) :
  is_blank text = true -> block_lines text = [].
Proof.
  intros H. unfold block_lines.
  pose proof (split_all_chars _ Char.newline _ (replace_blank text H)) as Hall.
  induction Hall as [|piece rest Hp _ IH]; [reflexivity|].
  simpl. rewrite (strip_spaces piece Hp). simpl. exact IH.
Qed.

(** X4.  A block of nothing but white space and middle dots has no
    lines, and the parser returns no record for it. *)
Theorem parse_blank_text (text link state : string) :
  is_blank text = true -> parse_listing_text text link state = None.
Proof.
  intros H. unfold parse_listing_text. rewrite (block_lines_blank text H).
  reflexivity.
Qed.

Lemma parse_blank_text_witness : parse_listing_text blank_text "u" "PA" = None.
Proof. exact (parse_blank_text blank_text "u" "PA" eq_refl). Defined.

Lemma unset_empty (x : string) : negb (Str.truthy x) = true -> x = EmptyString.
Proof. destruct x; [reflexivity|discriminate]. Qed.

Lemma classify_line_effect (v : line_vars) (line : string) :
  line_effect v line (classify_line v line).
Proof.
  unfold classify_line.
  repeat match goal with
         | |- line_effect _ _ (if ?b then _ else _) =>
             let E := fresh "E" in destruct b eqn:E
         end;
    try apply effect_none;
    repeat match goal with
           | H : _ && _ = true |- _ =>
               let H1 := fresh in let H2 := fresh in
               apply andb_prop in H as [H1 H2]
           end;
    repeat match goal with
           | H : negb (Str.truthy _) = true |- _ => apply unset_empty in H
           end.
  - apply effect_price_line; assumption.
  - apply effect_price_phrase; [simpl; auto|assumption].
  - apply effect_price_phrase; [simpl; auto|assumption].
  - apply effect_price_phrase; [simpl; auto|assumption].
  - apply effect_address; [|assumption].
    apply orb_true_intro. left. assumption.
  - apply effect_address; [|assumption].
    apply orb_true_intro. right. assumption.
  - destruct (search _RE_SQFT_EXTRACT _) as [m|] eqn:Es; [|apply effect_none].
    apply effect_sqft; assumption.
  - apply effect_prop_type; assumption.
  - apply effect_broker; assumption.
Qed.

Lemma manor_parses :
  parse_listing_text manor_text "https://www.loopnet.com/Listing/7" "OH"
  = Some manor_listing.
Proof. vm_compute. reflexivity. Qed.

Lemma parse_some_inv (text link state : string) (r : listing) :
  parse_listing_text text link state = Some r ->
  let v := fold_left classify_line (block_lines text) no_vars in
  r = {| address := v_address v; price := v_price v;
         beds := parse_beds (Str.lower text);
         units := parse_units (Str.lower text);
         sqft := v_sqft v;
         property_type :=
           if negb (Str.truthy (v_address v)) && negb (Str.truthy (v_prop_type v))
           then first_long_line (block_lines text) else v_prop_type v;
         cap_rate := parse_cap_rate (Str.lower text);
         broker_name := v_broker v; broker_phone := EmptyString;
         broker_email := EmptyString; broker_company := EmptyString;
         listing_url := link; state := state |}.
Proof.
  unfold parse_listing_text. destruct (block_lines text) as [|l0 ls]; [discriminate|].
  destruct (_ && _); [discriminate|]. intros H. inversion H. reflexivity.
Qed.

(** X5.  A record the parser returns has bed and unit counts that are
    not negative, empty broker phone, e-mail and company, and carries
    the link and the region it was called with. *)
Theorem parsed_record_shape (text link region : string) (r : listing) :
  parse_listing_text text link region = Some r ->
  (0 <= beds r)%Z /\ (0 <= units r)%Z /\
  broker_phone r = EmptyString /\ broker_email r = EmptyString /\
  broker_company r = EmptyString /\
  listing_url r = link /\ state r = region.
Proof.
  intros H. apply parse_some_inv in H. subst r. simpl.
  split; [apply parse_beds_nonneg|]. split; [apply parse_units_nonneg|].
  repeat split.
Qed.

Lemma parsed_record_shape_witness :
  (0 <= beds manor_listing)%Z /\ (0 <= units manor_listing)%Z
  /\ listing_url manor_listing = "https://www.loopnet.com/Listing/7".
Proof.
  pose proof (parsed_record_shape _ _ _ _ manor_parses) as (H1 & H2 & _ & _ & _ & H6 & _).
  split; [exact H1|]. split; [exact H2|exact H6].
Defined.

(** A turn of the loop leaves a filled variable as it is. *)
Lemma line_effect_keeps (v v' : line_vars) (line : string) :
  line_effect v line v' ->
  (v_price v <> EmptyString -> v_price v' = v_price v) /\
  (v_address v <> EmptyString -> v_address v' = v_address v) /\
  (v_sqft v <> EmptyString -> v_sqft v' = v_sqft v) /\
  (v_prop_type v <> EmptyString -> v_prop_type v' = v_prop_type v) /\
  (v_broker v <> EmptyString -> v_broker v' = v_broker v).
Proof.
  intros H. destruct H; simpl; repeat split; intros Hne;
    try reflexivity; congruence.
Qed.

Lemma line_loop_keeps (lines : list string) :
  forall v,
    let v' := fold_left classify_line lines v in
    (v_price v <> EmptyString -> v_price v' = v_price v) /\
    (v_address v <> EmptyString -> v_address v' = v_address v) /\
    (v_sqft v <> EmptyString -> v_sqft v' = v_sqft v) /\
    (v_prop_type v <> EmptyString -> v_prop_type v' = v_prop_type v) /\
    (v_broker v <> EmptyString -> v_broker v' = v_broker v).
Proof.
  induction lines as [|l ls IH]; intros v; cbn [fold_left]; [tauto|].
  specialize (IH (classify_line v l)). cbv zeta in IH.
  pose proof (line_effect_keeps _ _ _ (classify_line_effect v l)) as Hk.
  destruct IH as (I1 & I2 & I3 & I4 & I5). destruct Hk as (K1 & K2 & K3 & K4 & K5).
  repeat split; intros Hne.
  - rewrite I1; [auto|]. rewrite K1; auto.
  - rewrite I2; [auto|]. rewrite K2; auto.
  - rewrite I3; [auto|]. rewrite K3; auto.
  - rewrite I4; [auto|]. rewrite K4; auto.
  - rewrite I5; [auto|]. rewrite K5; auto.
Qed.

(** X6.  The first matching line wins: whatever the line loop has put
    into price, address, square footage, property type or broker after
    some lines, further lines of the block do not change it. *)
Theorem first_matching_line_wins (lines more : list string) :
  (v_price (fold_left classify_line lines no_vars) <> EmptyString ->
   v_price (fold_left classify_line (lines ++ more) no_vars)
   = v_price (fold_left classify_line lines no_vars)) /\
  (v_address (fold_left classify_line lines no_vars) <> EmptyString ->
   v_address (fold_left classify_line (lines ++ more) no_vars)
   = v_address (fold_left classify_line lines no_vars)) /\
  (v_sqft (fold_left classify_line lines no_vars) <> EmptyString ->
   v_sqft (fold_left classify_line (lines ++ more) no_vars)
   = v_sqft (fold_left classify_line lines no_vars)) /\
  (v_prop_type (fold_left classify_line lines no_vars) <> EmptyString ->
   v_prop_type (fold_left classify_line (lines ++ more) no_vars)
   = v_prop_type (fold_left classify_line lines no_vars)) /\
  (v_broker (fold_left classify_line lines no_vars) <> EmptyString ->
   v_broker (fold_left classify_line (lines ++ more) no_vars)
   = v_broker (fold_left classify_line lines no_vars)).
Proof. rewrite fold_left_app. apply line_loop_keeps. Qed.

Lemma first_matching_line_wins_witness :
  v_price (fold_left classify_line ["$1,000,000"; "$2,000,000"; "Negotiable"] no_vars)
  = "$1,000,000".
Proof.
  exact (proj1 (first_matching_line_wins ["$1,000,000"] ["$2,000,000"; "Negotiable"])
           ltac:(discriminate)).
Defined.

(** The lines of a block are stripped and not empty. *)
Lemma rstrip_idem (s : string) : Str.rstrip (Str.rstrip s) = Str.rstrip s.
Proof.
  induction s as [|c s IH]; [reflexivity|]. simpl.
  destruct (Char.is_space c && Str.is_empty (Str.rstrip s)) eqn:E; [reflexivity|].
  simpl. rewrite IH, E. reflexivity.
Qed.

Lemma lstrip_no_leading (s : string) : no_leading_space (Str.lstrip s) = true.
Proof.
  induction s as [|c s IH]; [reflexivity|]. simpl.
  destruct (Char.is_space c) eqn:E; [exact IH|]. simpl. rewrite E. reflexivity.
Qed.

Lemma lstrip_id (s : string) : no_leading_space s = true -> Str.lstrip s = s.
Proof.
  destruct s as [|c s]; [reflexivity|]. simpl. intros H.
  apply negb_true_iff in H. rewrite H. reflexivity.
Qed.

Lemma rstrip_no_leading (s : string) :
  no_leading_space s = true -> no_leading_space (Str.rstrip s) = true.
Proof.
  destruct s as [|c s]; [reflexivity|]. simpl. intros H.
  apply negb_true_iff in H. rewrite H. simpl. rewrite H. reflexivity.
Qed.

Lemma strip_idem (s : string) : Str.strip (Str.strip s) = Str.strip s.
Proof.
  unfold Str.strip.
  rewrite (lstrip_id (Str.rstrip (Str.lstrip s)));
    [apply rstrip_idem|apply rstrip_no_leading, lstrip_no_leading].
Qed.

Lemma block_lines_stripped (text line : string) :
  In line (block_lines text) -> Str.strip line = line /\ line <> EmptyString.
Proof.
  unfold block_lines. rewrite in_map_iff. intros (l & <- & Hl).
  apply filter_In in Hl as [_ Hl]. split; [apply strip_idem|].
  apply truthy_nonempty. exact Hl.
Qed.

Lemma line_effect_from_lines (lines : list string) (v v' : line_vars) (line : string) :
  In line lines -> Str.strip line = line ->
  from_lines lines v -> line_effect v line v' -> from_lines lines v'.
Proof.
  intros Hin Hs (Hp & Ha & Hf & Ht & Hb) He.
  destruct He; unfold from_lines; simpl; rewrite ?Hs.
  - tauto.
  - repeat split; auto.
  - repeat split; auto.
  - repeat split; auto.
  - repeat split; auto. right.
    apply search_group_plus in H as (d & -> & Hd & Hne); [|reflexivity].
    exists d. simpl. auto.
  - repeat split; auto.
  - repeat split; auto.
Qed.

Lemma line_loop_from_lines (lines ls : list string) :
  forall v,
    (forall l, In l ls -> In l lines /\ Str.strip l = l) ->
    from_lines lines v -> from_lines lines (fold_left classify_line ls v).
Proof.
  induction ls as [|l ls IH]; intros v Hls Hv; cbn [fold_left]; [exact Hv|].
  apply IH; [intros l' Hl'; apply Hls; now right|].
  destruct (Hls l) as [Hin Hs]; [now left|].
  eapply line_effect_from_lines; eauto. apply classify_line_effect.
Qed.

Lemma block_lines_from_lines (text : string) :
  from_lines (block_lines text) (fold_left classify_line (block_lines text) no_vars).
Proof.
  apply line_loop_from_lines.
  - intros l Hl. split; [exact Hl|]. apply (block_lines_stripped text l Hl).
  - unfold from_lines, formatted. simpl. tauto.
Qed.

Lemma first_long_line_In (lines : list string) :
  (forall l, In l lines -> Str.strip l = l) ->
  first_long_line lines = EmptyString \/ In (first_long_line lines) lines.
Proof.
  induction lines as [|l ls IH]; intros Hs; cbn [first_long_line]; [auto|].
  assert (IH' : first_long_line ls = EmptyString \/ In (first_long_line ls) ls)
    by (apply IH; intros l' Hl'; apply Hs; now right).
  cbv zeta. cbn [In].
  destruct (Str.contains_any _ (Str.lower l)); [tauto|].
  destruct (_ && _); [|tauto].
  right. left. symmetry. apply Hs. now left.
Qed.

Lemma parsed_fields_from_lines (text link region : string) (r : listing) :
  parse_listing_text text link region = Some r ->
  (price r = EmptyString \/ In (price r) price_phrases
   \/ (In (price r) (block_lines text) /\ found _RE_PRICE (price r) = true)) /\
  (address r = EmptyString
   \/ (In (address r) (block_lines text)
       /\ found _RE_ADDR_ZIP (address r) || found _RE_ADDR_STATE (address r) = true)) /\
  (property_type r = EmptyString \/ In (property_type r) (block_lines text)) /\
  (broker_name r = EmptyString \/ In (broker_name r) (block_lines text)).
Proof.
  intros H. apply parse_some_inv in H. subst r. simpl.
  destruct (block_lines_from_lines text) as (Hp & Ha & _ & Ht & Hb).
  split; [exact Hp|]. split; [exact Ha|]. split; [|exact Hb].
  destruct (_ && _); [|exact Ht].
  apply first_long_line_In. intros l Hl. apply (block_lines_stripped text l Hl).
Qed.

(** X7.  The text fields of a returned record are taken from the block:
    the price is empty, one of the three phrases the parser writes
    itself, or a line of the block in which [_RE_PRICE] matches; the
    address is empty or a line matching one of the two address patterns;
    property type and broker name are empty or lines of the block. *)
Theorem parsed_fields_come_from_lines (text link region : string) (r : listing) :
  parse_listing_text text link region = Some r ->
  (price r = EmptyString \/ In (price r) price_phrases
   \/ (In (price r) (block_lines text) /\ found _RE_PRICE (price r) = true)) /\
  (address r = EmptyString
   \/ (In (address r) (block_lines text)
       /\ found _RE_ADDR_ZIP (address r) || found _RE_ADDR_STATE (address r) = true)) /\
  (property_type r = EmptyString \/ In (property_type r) (block_lines text)) /\
  (broker_name r = EmptyString \/ In (broker_name r) (block_lines text)).
Proof. apply parsed_fields_from_lines. Qed.

Lemma parsed_fields_come_from_lines_witness :
  In (price manor_listing) (block_lines manor_text)
  /\ In (address manor_listing) (block_lines manor_text).
Proof.
  pose proof (parsed_fields_come_from_lines _ _ _ _ manor_parses) as (Hp & Ha & _).
  split.
  - destruct Hp as [Hp|[Hp|[Hp _]]]; [discriminate Hp| |exact Hp].
    simpl in Hp. destruct Hp as [Hp|[Hp|[Hp|[]]]]; discriminate Hp.
  - destruct Ha as [Ha|[Ha _]]; [discriminate Ha|exact Ha].
Defined.

(** X8.  In a returned record the cap rate is empty or a non-empty run
    of digits and dots followed by [% CAP], and the square footage is
    empty or a non-empty run of digits and commas followed by [ SF]. *)
Theorem parsed_number_formats (text link region : string) (r : listing) :
  parse_listing_text text link region = Some r ->
  formatted digit_or_dot "% CAP" (cap_rate r) /\
  formatted digit_or_comma " SF" (sqft r).
Proof.
  intros H. apply parse_some_inv in H. subst r. simpl. split.
  - unfold parse_cap_rate, formatted.
    destruct (search _RE_CAP (Str.lower text)) as [m|] eqn:E; [|auto].
    apply search_group_plus in E as (d & -> & Hd & Hne); [|reflexivity].
    right. exists d. simpl. auto.
  - apply (block_lines_from_lines text).
Qed.

Lemma parsed_number_formats_witness :
  formatted digit_or_dot "% CAP" "7.25% CAP"
  /\ formatted digit_or_comma " SF" "12,500 SF".
Proof. exact (parsed_number_formats _ _ _ _ manor_parses). Defined.

(** ** Dedup, enrichment and filter together *)

Section FirstSeenFixed.
Variable key_of : listing -> string.

Lemma first_seen_fixed (listings : list listing) :
  forall seen : gset string,
    (forall r, In r listings -> key_of r <> EmptyString /\ (key_of r ∉ seen)) ->
    NoDup (List.map key_of listings) ->
    first_seen key_of seen listings = listings.
Proof.
  induction listings as [|l rest IH]; intros seen Hk Hnd; simpl; [reflexivity|].
  destruct (Hk l) as [Hne Hns]; [now left|].
  apply truthy_nonempty in Hne. rewrite Hne. simpl.
  rewrite bool_decide_eq_false_2 by exact Hns. simpl. f_equal.
  simpl in Hnd. apply NoDup_cons in Hnd as [Hl Hnd].
  apply IH; [|exact Hnd]. intros r Hr.
  destruct (Hk r) as [Hrne Hrns]; [now right|]. split; [exact Hrne|].
  apply not_elem_of_add. split; [|exact Hrns].
  intros E. apply Hl. rewrite list_elem_of_In, in_map_iff. exists r. auto.
Qed.

Lemma first_seen_idem (listings : list listing) :
  first_seen key_of ∅ (first_seen key_of ∅ listings)
  = first_seen key_of ∅ listings.
Proof.
  apply first_seen_fixed; [|apply first_seen_NoDup].
  intros r Hr. apply first_seen_In in Hr as (Hne & Hns & _). auto.
Qed.

End FirstSeenFixed.

(** X9.  Both dedup passes are idempotent: running [dedupe] on its own
    output, or the page pass on its own output, changes nothing. *)
Theorem dedup_passes_idempotent (listings : list listing) :
  dedupe (dedupe listings) = dedupe listings /\
  scrape_search_page_unique (scrape_search_page_unique listings)
  = scrape_search_page_unique listings.
Proof. split; apply first_seen_idem. Qed.

Lemma page_listings_In (blocks : list (string * string)) (region : string)
    (r : listing) :
  In r (page_listings blocks region) ->
  exists text link, parse_listing_text text link region = Some r.
Proof.
  unfold page_listings. rewrite <- list_elem_of_In, list_elem_of_omap.
  intros ([text link] & _ & H). eauto.
Qed.

Lemma page_record_key (blocks : list (string * string))
    (region : string) (r : listing) :
  In r (scrape_search_page blocks region) ->
  dedupe_key r <> EmptyString.
Proof.
  unfold scrape_search_page, scrape_search_page_unique. intros H.
  apply first_seen_In in H as (Hk & _ & l1 & l2 & E & _).
  assert (Hin : In r (page_listings blocks region))
    by (rewrite E; apply in_elt).
  apply page_listings_In in Hin as (text & link & Hp).
  apply parsed_fields_from_lines in Hp as (_ & Ha & _).
  unfold dedupe_key. unfold page_key in Hk. intros Hd.
  apply or_empty in Hd as [Hu Hd]. apply or_empty in Hd as [Hd _].
  apply (proj1 (lower_empty _)) in Hd.
  destruct Ha as [Ha|[Ha _]].
  - apply Hk. apply or_empty. auto.
  - apply block_lines_stripped in Ha as [Hs Hne]. congruence.
Qed.

(** X10.  A record that [scrape_search_page] returns has a non-empty
    natural key: it has a URL, or an address that is a stripped,
    non-empty line.  So [dedupe] never drops a record of a page for
    want of a key. *)
Theorem page_records_have_keys (blocks : list (string * string))
    (region : string) (r : listing) :
  In r (scrape_search_page blocks region) ->
  dedupe_key r <> EmptyString.
Proof. apply page_record_key. Qed.

Lemma page_records_have_keys_witness :
  Str.truthy (dedupe_key oak_listing_1) = true.
Proof.
  apply truthy_nonempty.
  apply (page_records_have_keys
           [(oak_text_1, EmptyString); (oak_text_2, EmptyString)] "OH").
  vm_compute. auto.
Defined.

(** X11.  On the records collected from pages, [dedupe] keeps exactly
    the first record of every key: a record is in the output if and only
    if it occurs in the input with no record of the same key before it. *)
Theorem dedupe_of_collected (pages : list (list (string * string) * string))
    (r : listing) :
  In r (dedupe (collected pages)) <->
  exists l1 l2, collected pages = l1 ++ r :: l2
                /\ forall r', In r' l1 -> dedupe_key r' <> dedupe_key r.
Proof.
  unfold dedupe. rewrite first_seen_In. split; [tauto|].
  intros (l1 & l2 & E & Hfirst). split; [|split].
  - assert (Hin : In r (collected pages)) by (rewrite E; apply in_elt).
    unfold collected in Hin. apply in_flat_map in Hin as ([blocks region] & _ & Hin).
    eapply page_record_key. exact Hin.
  - apply not_elem_of_empty.
  - eauto.
Qed.

Lemma enrich_untouched (detail : detail_info) (k : key) :
  detail_get k detail = None ->
  forall lst, get k (enrich lst detail) = get k lst.
Proof.
  intros Hk. unfold enrich. generalize detail_keys.
  induction l as [|k' ks IH]; intros lst; cbn [fold_left]; [reflexivity|].
  rewrite IH. unfold merge_key.
  destruct (detail_get k' detail) as [v|] eqn:E; [|reflexivity].
  destruct (_ && _); [|reflexivity].
  apply get_set_other. intros ->. congruence.
Qed.

(** X12.  Enrichment never touches the price, the listing URL or the
    state of a listing, whatever the detail page holds; and with a
    detail record made by [scrape_detail_page] it never touches the
    property type either. *)
Theorem enrich_frame (lst : listing) (detail : detail_info) :
  price (enrich lst detail) = price lst /\
  listing_url (enrich lst detail) = listing_url lst /\
  state (enrich lst detail) = state lst /\
  forall name phone email company body_text : string,
    property_type (enrich lst (scrape_detail_page name phone email company body_text))
    = property_type lst.
Proof.
  split; [exact (enrich_untouched detail k_price eq_refl lst)|].
  split; [exact (enrich_untouched detail k_listing_url eq_refl lst)|].
  split; [exact (enrich_untouched detail k_state eq_refl lst)|].
  intros name phone email company body_text.
  unfold enrich. generalize detail_keys. intros ks. revert lst.
  induction ks as [|k ks IH]; intros lst; cbn [fold_left]; [reflexivity|].
  rewrite IH. unfold merge_key.
  destruct (detail_get k _) as [v|] eqn:E; [|reflexivity].
  destruct (truthy k v) eqn:Hv; [|reflexivity].
  destruct (negb _); [|reflexivity]. simpl.
  destruct k; try reflexivity. simpl in E. inversion E; subst v. discriminate Hv.
Qed.

Lemma dedupe_key_enrich_one (detail_of : string -> detail_info) (lst : listing) :
  dedupe_key (enrich_one detail_of lst) = dedupe_key lst.
Proof.
  unfold enrich_one. destruct (Str.truthy (listing_url lst)) eqn:Hu; [|reflexivity].
  simpl. destruct (_ && _); [reflexivity|].
  unfold dedupe_key, Str.or.
  change (listing_url (enrich lst (detail_of (listing_url lst))))
    with (get k_listing_url (enrich lst (detail_of (listing_url lst)))).
  rewrite (enrich_untouched _ k_listing_url eq_refl). cbn [get].
  rewrite Hu. reflexivity.
Qed.

(** X13.  What [main] hands to the report has no two records with the
    same natural key, although enrichment may have filled in addresses
    after the dedup. *)
Theorem main_output_keys_distinct (detail_of : string -> detail_info)
    (all_listings : list listing) :
  NoDup (List.map dedupe_key (main_after_scrape detail_of all_listings)).
Proof.
  unfold main_after_scrape, final, filtered, enrich_all.
  assert (H : NoDup (List.map dedupe_key
                       (List.map (enrich_one detail_of) (dedupe all_listings)))).
  { rewrite List.map_map.
    rewrite (List.map_ext _ dedupe_key (dedupe_key_enrich_one detail_of)).
    apply (first_seen_NoDup dedupe_key). }
  revert H. generalize (List.map (enrich_one detail_of) (dedupe all_listings)).
  intros l H. induction l as [|x l IH]; simpl; [constructor|].
  simpl in H. apply NoDup_cons in H as [Hx Hl]. specialize (IH Hl).
  assert (Hsub : forall p (l' : list listing) y,
             In y (List.map dedupe_key (List.filter p l')) ->
             In y (List.map dedupe_key l')).
  { intros p l' y Hy. apply in_map_iff in Hy as (z & <- & Hz).
    apply filter_In in Hz as [Hz _]. apply in_map. exact Hz. }
  destruct (meets_criteria x); simpl; [|exact IH].
  destruct (negb (both_known_and_small x)); simpl; [|exact IH].
  apply NoDup_cons. split; [|exact IH].
  intros Hin. apply Hx. apply list_elem_of_In.
  apply list_elem_of_In in Hin. apply Hsub in Hin. apply Hsub in Hin. exact Hin.
Qed.

(** X14.  A listing that reaches the thresholds on the list page keeps
    its place: with at least MIN_BEDS beds or at least MIN_UNITS units
    before enrichment, the enriched listing passes the size filter,
    whatever the detail page says. *)
Theorem qualified_stays_qualified (detail_of : string -> detail_info)
    (all_listings : list listing) (lst : listing) :
  In lst all_listings ->
  (MIN_BEDS <= beds lst \/ MIN_UNITS <= units lst)%Z ->
  In (enrich_one detail_of lst) (final (enrich_all detail_of all_listings)).
Proof.
  intros Hin Hq. apply In_final. split; [apply in_map; exact Hin|].
  assert (Hb : (MIN_BEDS <= beds lst)%Z -> beds (enrich_one detail_of lst) = beds lst).
  { intros H. apply (enrich_one_keeps_filled detail_of lst k_beds).
    simpl. unfold MIN_BEDS in H. apply negb_true_iff, Z.eqb_neq. lia. }
  assert (Hu : (MIN_UNITS <= units lst)%Z -> units (enrich_one detail_of lst) = units lst).
  { intros H. apply (enrich_one_keeps_filled detail_of lst k_units).
    simpl. unfold MIN_UNITS in H. apply negb_true_iff, Z.eqb_neq. lia. }
  assert (Hm : (50 <= beds (enrich_one detail_of lst)
                \/ 40 <= units (enrich_one detail_of lst))%Z).
  { unfold MIN_BEDS, MIN_UNITS in *.
    destruct Hq as [H|H]; [left; rewrite (Hb H)|right; rewrite (Hu H)]; exact H. }
  split.
  - apply meets_criteria_iff. tauto.
  - destruct (both_known_and_small _) eqn:E; [|reflexivity].
    apply both_known_and_small_iff in E. lia.
Qed.

Lemma qualified_stays_qualified_witness :
  In (enrich_one (fun _ => ten_bed_detail) sixty_bed_listing)
     (final (enrich_all (fun _ => ten_bed_detail) [sixty_bed_listing]))
  /\ beds (enrich_one (fun _ => ten_bed_detail) sixty_bed_listing) = 60%Z
  /\ units (enrich_one (fun _ => ten_bed_detail) sixty_bed_listing) = 12%Z.
Proof.
  split; [|split; reflexivity].
  apply (qualified_stays_qualified (fun _ => ten_bed_detail) [sixty_bed_listing]).
  - now left.
  - left. unfold MIN_BEDS. simpl. lia.
Defined.

(** ** Number extraction *)










(** ** The Listing Block Extractor *)

Lemma absolute_url_http (h : string) :
  Str.startswith "http" (absolute_url h) = true.
Proof.
  unfold absolute_url. destruct (Str.startswith "http" h) eqn:E; [exact E|].
  reflexivity.
Qed.

Lemma property_links_http (all_links : list (string * string)) :
  forall seen text link,
    In (text, link) (property_links seen all_links) ->
    Str.startswith "http" link = true.
Proof.
  induction all_links as [|[href t] rest IH]; intros seen text link;
    cbn [property_links]; [intros []|].
  destruct (_ && _); [|apply IH].
  destruct (Str.contains_any _ _); [apply IH|].
  intros [H|H]; [|eapply IH; exact H].
  inversion H. apply absolute_url_http.
Qed.

Lemma page_blocks_links (cards : list (string * option string))
    (all_links : list (string * string)) (body_text text link : string) :
  In (text, link) (page_blocks cards all_links body_text) ->
  link = EmptyString \/ Str.startswith "http" link = true.
Proof.
  unfold page_blocks. destruct cards as [|c cs].
  - destruct (property_links ∅ all_links) as [|l ls] eqn:E.
    + unfold text_blocks. rewrite <- list_elem_of_In, list_elem_of_omap.
      intros (block & _ & H). destruct (_ && _); [|discriminate].
      inversion H. now left.
    + rewrite <- E. unfold link_blocks. rewrite filter_In. intros [H _].
      right. eapply property_links_http. exact H.
  - unfold card_blocks. rewrite <- list_elem_of_In, list_elem_of_omap.
    intros ([t a] & _ & H). destruct (Nat.ltb _ 10); [discriminate|].
    inversion H. unfold card_link. destruct a as [h|]; [|now left].
    destruct (negb _); [|now left]. right. apply absolute_url_http.
Qed.

(** X16.  Whichever branch finds the blocks, the listing URL of a
    record that [scrape_search_page] returns is empty or begins with
    [http]: a relative href has been put behind the address of the
    site. *)
Theorem page_records_urls_absolute (cards : list (string * option string))
    (all_links : list (string * string)) (body_text region : string)
    (r : listing) :
  In r (scrape_search_page_of cards all_links body_text region) ->
  listing_url r = EmptyString \/ Str.startswith "http" (listing_url r) = true.
Proof.
  unfold scrape_search_page_of, scrape_search_page, scrape_search_page_unique.
  intros H. apply first_seen_In in H as (_ & _ & l1 & l2 & E & _).
  assert (Hin : In r (page_listings (page_blocks cards all_links body_text) region))
    by (rewrite E; apply in_elt).
  unfold page_listings in Hin.
  apply list_elem_of_In, list_elem_of_omap in Hin as ([text link] & Hb & Hp).
  apply list_elem_of_In, page_blocks_links in Hb.
  apply parse_some_inv in Hp. subst r. exact Hb.
Qed.

Lemma page_records_urls_absolute_witness :
  scrape_search_page_of
    [("Oak Manor, 80 beds, $4,250,000", Some "/Listing/7/Oak-Manor");
     ("Elm Court, 45 units", Some "https://www.loopnet.com/Listing/8")] [] "" "OH"
  = [ Listing "" "Oak Manor, 80 beds, $4,250,000" 80 0 "" "" "" "" "" "" ""
              "https://www.loopnet.com/Listing/7/Oak-Manor" "OH";
      Listing "" "" 0 45 "" "Elm Court, 45 units" "" "" "" "" ""
              "https://www.loopnet.com/Listing/8" "OH" ]
  /\ Str.startswith "http" "https://www.loopnet.com/Listing/7/Oak-Manor" = true.
Proof.
  split; [vm_compute; reflexivity|].
  destruct (page_records_urls_absolute
              [("Oak Manor, 80 beds, $4,250,000", Some "/Listing/7/Oak-Manor");
               ("Elm Court, 45 units", Some "https://www.loopnet.com/Listing/8")]
              [] "" "OH"
              (Listing "" "Oak Manor, 80 beds, $4,250,000" 80 0 "" "" "" "" "" "" ""
                       "https://www.loopnet.com/Listing/7/Oak-Manor" "OH"))
    as [H|H].
  - vm_compute. auto.
  - discriminate H.
  - exact H.
Defined.

Lemma all_chars_startswith (p : ascii -> bool) (w : string) :
  forall s, Str.all_chars p s = true -> Str.startswith w s = true ->
            Str.all_chars p w = true.
Proof.
  induction w as [|a w IH]; intros s Hs Hw; [reflexivity|].
  destruct s as [|b s]; [discriminate|]. simpl in *.
  apply andb_prop in Hs as [Hb Hs]. apply andb_prop in Hw as [Hab Hw].
  apply Ascii.eqb_eq in Hab. subst b. rewrite Hb. eapply IH; eauto.
Qed.

Lemma all_chars_contains (p : ascii -> bool) (w s : string) :
  Str.all_chars p s = true -> Str.contains w s = true ->
  Str.all_chars p w = true.
Proof.
  induction s as [|b s IH]; simpl; intros Hs Hw.
  - apply orb_prop in Hw as [Hw|Hw]; [|discriminate].
    eapply all_chars_startswith; [|exact Hw]. reflexivity.
  - apply orb_prop in Hw as [Hw|Hw].
    + eapply all_chars_startswith; [|exact Hw]. exact Hs.
    + apply andb_prop in Hs as [_ Hs]. auto.
Qed.

Lemma lower_no_AZ (s : string) :
  Str.all_chars (fun c => negb (Char.is_AZ c)) (Str.lower s) = true.
Proof.
  induction s as [|c s IH]; [reflexivity|]. unfold Str.lower in *. simpl.
  rewrite IH, andb_true_r.
  destruct c as [[] [] [] [] [] [] [] []]; reflexivity.
Qed.

(** X17.  The entry [?propertyTypes=] of the skip list of the link
    branch never applies: the href is lower-cased before the test, and
    a lower-cased text holds no capital T.  The skip test is the test
    against the five other entries. *)
Theorem skip_entry_never_applies (href : string) :
  Str.contains "?propertyTypes=" (Str.lower href) = false /\
  Str.contains_any link_skips (Str.lower href)
  = Str.contains_any
      ["senior-housing"; "senior-living"; "assisted-living"; "?types="; "/search/"]
      (Str.lower href).
Proof.
  assert (H : Str.contains "?propertyTypes=" (Str.lower href) = false).
  { destruct (Str.contains _ _) eqn:E; [|reflexivity].
    apply (all_chars_contains _ _ _ (lower_no_AZ href)) in E. discriminate E. }
  split; [exact H|].
  unfold Str.contains_any, link_skips. cbn [existsb]. rewrite H. reflexivity.
Qed.

(** ** The page loop *)

Lemma page_loop_spec (site : nat -> list listing * bool) (fuel : nat) :
  forall p,
    let n := snd (page_loop site fuel p) in
    (n <= fuel)%nat /\ (0 < fuel -> 0 < n)%nat /\
    fst (page_loop site fuel p) = flat_map (fun i => fst (site i)) (seq p n) /\
    (forall i, (p <= i < p + n - 1)%nat ->
               fst (site i) <> [] /\ snd (site i) = true) /\
    ((0 < n < fuel)%nat ->
     fst (site (p + n - 1)%nat) = [] \/ snd (site (p + n - 1)%nat) = false).
Proof.
  induction fuel as [|fuel IH]; intros p; cbn [page_loop].
  - cbn [snd fst seq flat_map].
    split; [lia|]. split; [lia|]. split; [reflexivity|].
    split; intros; lia.
  - destruct (site p) as [cards has_next] eqn:Es.
    destruct cards as [|c cs]; [|destruct has_next].
    + cbn [snd fst seq flat_map]. rewrite Es. cbn [fst].
      split; [lia|]. split; [lia|]. split; [reflexivity|].
      split; [intros i Hi; lia|].
      intros _. left. replace (p + 1 - 1)%nat with p by lia.
      rewrite Es. reflexivity.
    + specialize (IH (S p)). cbv zeta in IH.
      destruct (page_loop site fuel (S p)) as [more n] eqn:El.
      cbn [fst snd] in IH. destruct IH as (I1 & I2 & I3 & I4 & I5).
      cbn [fst snd]. split; [lia|]. split; [lia|]. split; [|split].
      * cbn [seq flat_map]. rewrite Es. cbn [fst]. rewrite I3. reflexivity.
      * intros i Hi. destruct (Nat.eq_dec i p) as [->|Hne].
        -- rewrite Es. split; [discriminate|reflexivity].
        -- apply I4. lia.
      * intros Hn. destruct n as [|n'].
        -- exfalso. assert (Hf : (0 < fuel)%nat) by lia. specialize (I2 Hf). lia.
        -- replace (p + S (S n') - 1)%nat with (S p + S n' - 1)%nat by lia.
           apply I5. lia.
    + cbn [snd fst seq flat_map]. rewrite Es. cbn [fst]. rewrite app_nil_r.
      split; [lia|]. split; [lia|]. split; [reflexivity|].
      split; [intros i Hi; lia|].
      intros _. right. replace (p + 1 - 1)%nat with p by lia.
      rewrite Es. reflexivity.
Qed.

(** X18.  The page loop of a region scrapes between 1 and MAX_PAGES
    pages and collects the records of exactly those pages, in order.
    Every page before the last had records and a working next button;
    and when fewer than MAX_PAGES pages were scraped, the last page had
    no records or its next button failed: the loop stops at that page,
    not before and not after. *)
Theorem page_loop_stops (site : nat -> list listing * bool) :
  (1 <= snd (scrape_region site) <= MAX_PAGES)%nat /\
  fst (scrape_region site)
  = flat_map (fun i => fst (site i)) (seq 1 (snd (scrape_region site))) /\
  (forall i, (1 <= i < snd (scrape_region site))%nat ->
             fst (site i) <> [] /\ snd (site i) = true) /\
  ((snd (scrape_region site) < MAX_PAGES)%nat ->
   fst (site (snd (scrape_region site))) = []
   \/ snd (site (snd (scrape_region site))) = false).
Proof.
  unfold scrape_region.
  pose proof (page_loop_spec site MAX_PAGES 1) as H. cbv zeta in H.
  destruct H as (H1 & H2 & H3 & H4 & H5).
  assert (Hpos : (0 < snd (page_loop site MAX_PAGES 1))%nat)
    by (apply H2; unfold MAX_PAGES; lia).
  split; [lia|]. split; [exact H3|]. split.
  - intros i Hi. apply H4. lia.
  - intros Hn.
    assert (E : (1 + snd (page_loop site MAX_PAGES 1) - 1)%nat
                = snd (page_loop site MAX_PAGES 1)) by lia.
    rewrite E in H5. apply H5. lia.
Qed.

Lemma page_loop_stops_witness :
  scrape_region three_page_site
  = ([oak_listing_1; oak_listing_2; price_only_listing], 3%nat)
  /\ snd (three_page_site 3) = false.
Proof.
  split; [reflexivity|].
  destruct (proj2 (proj2 (proj2 (page_loop_stops three_page_site)))) as [H|H].
  - unfold MAX_PAGES. simpl. lia.
  - discriminate H.
  - exact H.
Defined.

(** ** The contact fields of the Detail Enricher *)

Lemma run_min_length {A : Type} (r : regex) :
  forall (c : cursor) (k : cursor -> option A) (x : A),
    run r c k = Some x ->
    exists c', k c' = Some x
               /\ (String.length (rest c') + min_length r <= String.length (rest c))%nat.
Proof.
  induction r as [|p|r1 IH1 r2 IH2|r1 IH1 r2 IH2|p|r IH| |];
    intros c k x H; cbn [run min_length] in *.
  - exists c. split; [exact H|lia].
  - destruct (rest c) as [|a s] eqn:E; [discriminate|].
    destruct (p a); [|discriminate].
    eexists. split; [exact H|]. simpl. lia.
  - apply IH1 in H as (c1 & H & L1). apply IH2 in H as (c2 & H & L2).
    exists c2. split; [exact H|lia].
  - unfold orelse in H. destruct (run r1 c k) as [y|] eqn:E.
    + inversion H; subst y. apply IH1 in E as (c1 & E & L). exists c1.
      split; [exact E|lia].
    + apply IH2 in H as (c2 & H & L). exists c2. split; [exact H|lia].
  - apply star_inv in H as (d & s' & pv' & E & _ & H).
    eexists. split; [exact H|]. simpl. rewrite E, length_app. lia.
  - apply IH in H as (c1 & H & L). eexists. split; [exact H|]. simpl. exact L.
  - destruct (at_end c); [|discriminate]. exists c. split; [exact H|lia].
  - destruct (at_boundary c); [|discriminate]. exists c. split; [exact H|lia].
Qed.

Lemma match_length_bounds (r : regex) (pv : option ascii) (s : string) (n : nat) :
  match_length r pv s = Some n -> (min_length r <= n <= String.length s)%nat.
Proof.
  unfold match_length. intros H. apply run_min_length in H as (c' & H & L).
  simpl in L. inversion H. lia.
Qed.

Lemma take_length (n : nat) :
  forall s, (n <= String.length s)%nat -> String.length (Str.take n s) = n.
Proof.
  induction n as [|n IH]; intros s H; [destruct s; reflexivity|].
  destruct s as [|c s]; simpl in *; [lia|]. rewrite IH; lia.
Qed.

Lemma findall_min_length (r : regex) (s : string) :
  forall pv skip,
    Forall (fun m => (min_length r <= String.length m)%nat)
           (findall_from r pv s skip).
Proof.
  induction s as [|a s IH]; intros pv skip; cbn [findall_from]; [constructor|].
  destruct skip as [|skip]; [|apply IH].
  destruct (match_length r pv (String a s)) as [[|n]|] eqn:E; try apply IH.
  constructor; [|apply IH].
  apply match_length_bounds in E. rewrite take_length; lia.
Qed.

Lemma first_tel_length (tel_hrefs : list string) :
  first_tel tel_hrefs = EmptyString
  \/ (10 <= String.length (first_tel tel_hrefs))%nat.
Proof.
  induction tel_hrefs as [|href rest IH]; cbn [first_tel]; [now left|].
  cbv zeta. destruct (Str.truthy _ && Nat.leb 10 _) eqn:E; [|exact IH].
  apply andb_prop in E as [_ E]. apply Nat.leb_le in E. now right.
Qed.

(** X19.  A broker phone reported by the Detail Enricher, whether read
    from a [tel:] link or found in the text by [_RE_PHONE], has at least
    ten characters. *)
Theorem detail_phone_length
    (contact_elements tel_hrefs mailto_hrefs : list string) (body_text : string) :
  info_broker_phone
    (scrape_detail_page_of contact_elements tel_hrefs mailto_hrefs body_text)
  = EmptyString
  \/ (10 <= String.length
              (info_broker_phone
                 (scrape_detail_page_of contact_elements tel_hrefs mailto_hrefs
                                        body_text)))%nat.
Proof.
  unfold scrape_detail_page_of, scrape_detail_page. cbn [info_broker_phone].
  unfold detail_phone. generalize (if Str.truthy (contact_text_of contact_elements)
                                   then contact_text_of contact_elements
                                   else body_text).
  intros search_text.
  destruct (negb (Str.truthy (first_tel tel_hrefs))) eqn:E; [|apply first_tel_length].
  pose proof (findall_min_length _RE_PHONE search_text None O) as Hall.
  unfold findall. destruct (findall_from _RE_PHONE None search_text 0) as [|m ms].
  - apply first_tel_length.
  - inversion Hall; subst. right. assumption.
Qed.

Lemma startswith_prefix (w x : string) :
  forall s, Str.startswith (w +:+ x) s = true -> Str.startswith w s = true.
Proof.
  induction w as [|a w IH]; intros s H; [reflexivity|].
  rewrite app_cons in H. destruct s as [|b s]; [discriminate|]. simpl in *.
  apply andb_prop in H as [Hab H]. rewrite Hab. simpl. eapply IH; exact H.
Qed.

Lemma contains_prefix (w x s : string) :
  Str.contains (w +:+ x) s = true -> Str.contains w s = true.
Proof.
  induction s as [|b s IH]; simpl; intros H.
  - apply orb_prop in H as [H|H]; [|discriminate].
    apply startswith_prefix in H. rewrite H. reflexivity.
  - apply orb_prop in H as [H|H].
    + apply startswith_prefix in H. rewrite H. reflexivity.
    + rewrite (IH H). apply orb_true_r.
Qed.

Lemma first_mailto_own (mailto_hrefs : list string) :
  Str.contains "loopnet.com" (Str.lower (first_mailto mailto_hrefs)) = false.
Proof.
  induction mailto_hrefs as [|href rest IH]; cbn [first_mailto]; [reflexivity|].
  cbv zeta. destruct (_ && _) eqn:E; [|exact IH].
  apply andb_prop in E as [_ E]. apply negb_true_iff in E.
  apply not_true_is_false. intros Ec.
  apply (contains_prefix "loopnet" ".com") in Ec. congruence.
Qed.

Lemma first_email_own (es : list string) :
  Str.contains "loopnet.com" (Str.lower (first_email es)) = false.
Proof.
  induction es as [|e rest IH]; cbn [first_email]; [reflexivity|].
  destruct (_ && _) eqn:E; [|exact IH].
  apply andb_prop in E as [E _]. apply negb_true_iff in E. exact E.
Qed.

(** X20.  The Detail Enricher never reports an address of the site
    itself as the broker e-mail: the lower-cased e-mail, from a
    [mailto:] link or from the text, does not contain [loopnet.com]. *)
Theorem detail_email_not_own
    (contact_elements tel_hrefs mailto_hrefs : list string) (body_text : string) :
  Str.contains "loopnet.com"
    (Str.lower (info_broker_email
                  (scrape_detail_page_of contact_elements tel_hrefs mailto_hrefs
                                         body_text)))
  = false.
Proof.
  unfold scrape_detail_page_of, scrape_detail_page. cbn [info_broker_email].
  unfold detail_email. destruct (negb _).
  - apply first_email_own.
  - apply first_mailto_own.
Qed.

Lemma contact_fold_blank (contact_elements : list string) :
  Forall (fun t => Str.strip t = EmptyString) contact_elements ->
  forall acc,
    fold_left (fun contact_text t =>
                 if Str.truthy (Str.strip t)
                 then contact_text +:+ (t +:+ String Char.newline EmptyString)
                 else contact_text)
              contact_elements acc = acc.
Proof.
  induction 1 as [|t ts Ht Hts IH]; intros acc; cbn [fold_left]; [reflexivity|].
  rewrite Ht. cbn [Str.truthy Str.is_empty negb]. apply IH.
Qed.

Lemma contact_text_blank (contact_elements : list string) :
  Forall (fun t => Str.strip t = EmptyString) contact_elements ->
  contact_text_of contact_elements = EmptyString.
Proof. intros H. apply (contact_fold_blank _ H). Qed.

Lemma first_name_shape (lines : list string) :
  first_name lines = EmptyString \/
  ((4 <= String.length (first_name lines) <= 50)%nat
   /\ Str.contains "@" (first_name lines) = false
   /\ (2 <= length (words (first_name lines)) <= 4)%nat
   /\ Str.contains_any name_stop_words (Str.lower (first_name lines)) = false).
Proof.
  induction lines as [|l rest IH]; cbn [first_name]; [now left|]. cbv zeta.
  destruct (negb (Str.truthy (Str.strip l)) || Str.contains "@" (Str.strip l)
            || matches_start _RE_STARTS_WITH_DIGIT (Str.strip l)
            || Nat.ltb 50 (String.length (Str.strip l))
            || Nat.ltb (String.length (Str.strip l)) 4) eqn:E1; [exact IH|].
  destruct (Str.contains_any name_stop_words (Str.lower (Str.strip l))) eqn:E2;
    [exact IH|].
  destruct (Nat.leb 2 (length (words (Str.strip l)))
            && Nat.leb (length (words (Str.strip l))) 4
            && forallb name_word_ok (words (Str.strip l))) eqn:E3; [|exact IH].
  right.
  apply orb_false_elim in E1 as [E1 E14]. apply orb_false_elim in E1 as [E1 E13].
  apply orb_false_elim in E1 as [E1 _]. apply orb_false_elim in E1 as [_ E12].
  apply Nat.ltb_ge in E14, E13.
  apply andb_prop in E3 as [E3 _]. apply andb_prop in E3 as [E31 E32].
  apply Nat.leb_le in E31, E32.
  repeat split; assumption.
Qed.

(** X21.  The broker name comes from the contact elements only: when
    none of them has text, no name is reported, whatever the body of the
    page says.  A reported name has 4 to 50 characters, no [@], two to
    four words, and none of the stop words. *)
Theorem detail_name_shape
    (contact_elements tel_hrefs mailto_hrefs : list string) (body_text : string) :
  (Forall (fun t => Str.strip t = EmptyString) contact_elements ->
   info_broker_name
     (scrape_detail_page_of contact_elements tel_hrefs mailto_hrefs body_text)
   = EmptyString) /\
  (info_broker_name
     (scrape_detail_page_of contact_elements tel_hrefs mailto_hrefs body_text)
   = EmptyString
   \/ ((4 <= String.length
               (info_broker_name
                  (scrape_detail_page_of contact_elements tel_hrefs mailto_hrefs
                                         body_text)) <= 50)%nat
       /\ Str.contains "@"
            (info_broker_name
               (scrape_detail_page_of contact_elements tel_hrefs mailto_hrefs
                                      body_text)) = false
       /\ (2 <= length
                  (words
                     (info_broker_name
                        (scrape_detail_page_of contact_elements tel_hrefs
                                               mailto_hrefs body_text))) <= 4)%nat
       /\ Str.contains_any name_stop_words
            (Str.lower
               (info_broker_name
                  (scrape_detail_page_of contact_elements tel_hrefs mailto_hrefs
                                         body_text))) = false)).
Proof.
  unfold scrape_detail_page_of, scrape_detail_page. cbn [info_broker_name].
  unfold detail_name. split.
  - intros H. rewrite (contact_text_blank _ H). reflexivity.
  - destruct (Str.truthy _); [apply first_name_shape|now left].
Qed.

Lemma detail_name_shape_witness :
  info_broker_name
    (scrape_detail_page_of [" "; String Char.newline EmptyString] [] []
       "Jane Doe, Senior Advisor, CBRE") = EmptyString
  /\ info_broker_name
       (scrape_detail_page_of
          ["Contact the team"; "Jane Doe" +:+ String Char.newline "jane@cbre.com"]
          [] [] "") = "Jane Doe".
Proof.
  split; [|reflexivity].
  apply (proj1 (detail_name_shape [" "; String Char.newline EmptyString] [] []
                  "Jane Doe, Senior Advisor, CBRE")).
  repeat constructor.
Defined.

(** ** What the detail page contributes *)

(** X22.  The record [scrape_detail_page] makes of a page text has
    non-negative bed and unit counts, a square footage and a cap rate
    that are empty or a number followed by [ SF] or [% CAP], and an
    empty property type. *)
Theorem detail_record_shape (name phone email company body_text : string) :
  (0 <= info_beds (scrape_detail_page name phone email company body_text))%Z /\
  (0 <= info_units (scrape_detail_page name phone email company body_text))%Z /\
  formatted digit_or_comma " SF"
    (info_sqft (scrape_detail_page name phone email company body_text)) /\
  formatted digit_or_dot "% CAP"
    (info_cap_rate (scrape_detail_page name phone email company body_text)) /\
  info_property_type (scrape_detail_page name phone email company body_text)
  = EmptyString.
Proof.
  unfold scrape_detail_page. simpl. split; [|split; [|split; [|split]]].
  - unfold detail_beds.
    destruct (search _RE_BED_DETAIL _) as [m|] eqn:E; [|lia].
    eapply count_nonneg; [|exact E]. reflexivity.
  - rewrite <- units_paths_agree. apply parse_units_nonneg.
  - unfold detail_sqft, formatted.
    destruct (search _RE_SQFT_EXTRACT _) as [m|] eqn:E; [|auto].
    apply search_group_plus in E as (d & -> & Hd & Hne); [|reflexivity].
    right. exists d. simpl. auto.
  - unfold detail_cap_rate, formatted.
    destruct (search _RE_CAP _) as [m|] eqn:E; [|auto].
    apply search_group_plus in E as (d & -> & Hd & Hne); [|reflexivity].
    right. exists d. simpl. auto.
  - reflexivity.
Qed.

Lemma merge_key_fills (detail : detail_info) (lst : listing) (k : key) (v : value k) :
  detail_get k detail = Some v -> truthy k v = true ->
  truthy k (get k lst) = false ->
  get k (merge_key detail lst k) = v.
Proof.
  intros Hd Hv Hl. unfold merge_key. rewrite Hd, Hv, Hl. simpl.
  apply get_set_same.
Qed.

Lemma fold_merge_fills (detail : detail_info) (k : key) (v : value k)
    (ks : list key) :
  detail_get k detail = Some v -> truthy k v = true ->
  In k ks ->
  forall lst,
    truthy k (get k lst) = false ->
    get k (fold_left (merge_key detail) ks lst) = v.
Proof.
  intros Hd Hv. induction ks as [|k' ks IH]; intros Hin lst Hl; [destruct Hin|].
  cbn [fold_left]. destruct (key_eq_dec k' k) as [->|Hne].
  - rewrite fold_merge_keeps; rewrite (merge_key_fills detail lst k v Hd Hv Hl);
      [reflexivity|exact Hv].
  - destruct Hin as [E|Hin]; [congruence|].
    apply IH; [exact Hin|].
    replace (get k (merge_key detail lst k')) with (get k lst); [exact Hl|].
    symmetry. unfold merge_key.
    destruct (detail_get k' detail) as [v'|]; [|reflexivity].
    destruct (_ && _); [|reflexivity].
    apply get_set_other. congruence.
Qed.

(** X23.  Enrichment does fill what is missing: under a key where the
    listing holds an empty string or 0 and the detail record holds a
    non-empty string or a nonzero count, the enriched listing holds the
    value of the detail record. *)
Theorem enrich_fills_missing (lst : listing) (detail : detail_info)
    (k : key) (v : value k) :
  detail_get k detail = Some v ->
  truthy k v = true ->
  truthy k (get k lst) = false ->
  get k (enrich lst detail) = v.
Proof.
  intros Hd Hv Hl. unfold enrich.
  apply fold_merge_fills; try assumption.
  destruct k; simpl; try discriminate Hd; tauto.
Qed.

Lemma enrich_fills_missing_witness :
  broker_name (enrich listing_with_phone detail_with_phone) = "Ann Lee"
  /\ units (enrich listing_with_phone detail_with_phone) = 70%Z.
Proof.
  split.
  - exact (enrich_fills_missing listing_with_phone detail_with_phone
             k_broker_name "Ann Lee" eq_refl eq_refl eq_refl).
  - exact (enrich_fills_missing listing_with_phone detail_with_phone
             k_units 70%Z eq_refl eq_refl eq_refl).
Defined.
